(** * The sync handler of the distributed Redis cluster controller

    A shallow embedding of
    [pkg/controller/distributedrediscluster/sync_handler.go]: the functions of
    the reconcile tick ([validate], [ensureCluster], [waitPodReady],
    [waitForClusterJoin], [syncCluster], [scalingDown]) as programs of a small
    state-and-error monad.

    The state threaded through a tick is the cluster object behind the
    [ctx.cluster] pointer (the only object the handler assigns to) and the
    trace of the calls made to the collaborators, in the order they are made.
    What a collaborator answers is given by a function of the trace so far, so
    that two calls of one method may answer differently. *)

From Stdlib Require Import ZArith String List Lia Bool.
From stdpp Require Import gmap strings list fin_maps pretty.

Local Open Scope string_scope.
Local Open Scope list_scope.
Local Open Scope Z_scope.

(** ** Machine integers and durations *)

(** Two's complement wrap-around of a [bits]-bit signed integer. *)
Definition wrap (bits : Z) (z : Z) : Z :=
  (z + 2 ^ (bits - 1)) mod 2 ^ bits - 2 ^ (bits - 1).

Definition min_int : Z := - 2 ^ 63.
Definition max_int : Z := 2 ^ 63 - 1.

(** Go's [int32] addition, [int] (64 bits) subtraction and [time.Duration]
    ([int64] nanoseconds) multiplication. *)
Definition int32_add (a b : Z) : Z := wrap 32 (a + b).
Definition int_sub (a b : Z) : Z := wrap 64 (a - b).

Definition Duration := Z.
Definition Duration_mul (a b : Duration) : Duration := wrap 64 (a * b).

Definition Second : Duration := 1000000000.
Definition Minute : Duration := 60 * Second.

(** [requeueAfter = 10 * time.Second] *)
Definition requeueAfter : Duration := 10 * Second.

(** ** The API objects (package [redisv1alpha1]) *)

Definition LabelSet := list (string * string).

Inductive BackupPhase :=
| BackupPhaseSucceeded
| BackupPhaseOther (phase : string).

Module BackupSourceSpec.
Record t := mk { Namespace : string; Name : string }.
End BackupSourceSpec.

Module RedisClusterBackupStatus.
Record t := mk {
  Phase : BackupPhase;
  ClusterImage : string;
  MasterSize : Z;
  ClusterReplicas : Z
}.
End RedisClusterBackupStatus.

Module RedisClusterBackup.
Record t := mk { Status : RedisClusterBackupStatus.t }.
End RedisClusterBackup.

(** [Init] and [BackupSource] are pointers: [None] is [nil]. *)
Record InitSpec := { BackupSource : option BackupSourceSpec.t }.

Record DistributedRedisClusterSpec := {
  Image : string;
  MasterSize : Z;
  ClusterReplicas : Z;
  Init : option InitSpec
}.

Record DistributedRedisClusterStatus := {
  RestoreSucceeded : Z;
  MinReplicationFactor : Z
}.

Record DistributedRedisCluster := {
  Name : string;
  Namespace : string;
  Spec : DistributedRedisClusterSpec;
  Status : DistributedRedisClusterStatus
}.

(** Assignments through the [cluster] pointer. *)
Definition set_Spec (c : DistributedRedisCluster) (sp : DistributedRedisClusterSpec) :=
  {| Name := Name c; Namespace := Namespace c; Spec := sp; Status := Status c |}.

Definition set_Image (c : DistributedRedisCluster) (v : string) :=
  set_Spec c {| Image := v; MasterSize := MasterSize (Spec c);
                ClusterReplicas := ClusterReplicas (Spec c); Init := Init (Spec c) |}.

Definition set_MasterSize (c : DistributedRedisCluster) (v : Z) :=
  set_Spec c {| Image := Image (Spec c); MasterSize := v;
                ClusterReplicas := ClusterReplicas (Spec c); Init := Init (Spec c) |}.

Definition set_ClusterReplicas (c : DistributedRedisCluster) (v : Z) :=
  set_Spec c {| Image := Image (Spec c); MasterSize := MasterSize (Spec c);
                ClusterReplicas := v; Init := Init (Spec c) |}.

(** ** The runtime topology (package [redisutil]) *)

Record Node := {
  ID : string;
  IP : string;
  Port : string;
  Role : string;
  Slots : list Z
}.

(** [Nodes] is [[]*Node]; the slices handed to the handler hold no nil
    pointer. *)
Definition Nodes := list Node.

(** [NodeInfos.Node] is a pointer. *)
Record NodeInfos := { NodeInfos_Node : option Node }.

Record ClusterInfos := { Infos : gmap string NodeInfos }.

Record StatefulSet := { Labels : LabelSet }.

(** ** Errors *)

(** The kinds of [errors.go], as the handler uses them. *)
Inductive ErrorType := Requeue | Kubernetes | Redis | Cluster | StopRetry.

(** A Go [error]: a plain error made with [fmt.Errorf], an error handed back
    by the platform API (with whether the request may be retried), or an error
    of this package, made by [kind.New(msg)] or [kind.Wrap(cause, msg)]. *)
Inductive error :=
| Errorf (msg : string)
| ApiError (retryable : bool) (msg : string)
| newError (errorType : ErrorType) (msg : string)
| wrapError (errorType : ErrorType) (msg : string) (cause : error).

Definition New (k : ErrorType) (msg : string) : error := newError k msg.
Definition Wrap (k : ErrorType) (err : error) (msg : string) : error :=
  wrapError k msg err.

(** The kind an error is classified with, if any. *)
Definition GetType (err : error) : option ErrorType :=
  match err with
  | newError k _ => Some k
  | wrapError k _ _ => Some k
  | _ => None
  end.

(** Modelled from the spec: [k8sutil.IsRequestRetryable] is not among the
    sources. Section 4.1, on ensureCluster: "infrastructure-class errors are
    retried, all other validation failures stop retrying permanently"; an
    error is retryable when it is a failure of the platform API that is
    flagged so, and a plain [fmt.Errorf] error never is. *)
Definition IsRequestRetryable (err : error) : bool :=
  match err with
  | ApiError retryable _ => retryable
  | _ => false
  end.

(** ** Waiters

    A waiter of wait.go, without the controller and the cluster it polls
    with. *)

Inductive waiter :=
| waitStatefulSetUpdating (name : string) (timeout tick : Duration)
| waitPodTerminating (name : string) (statefulSet : string) (timeout tick : Duration).

Definition waiter_Name (w : waiter) : string :=
  match w with
  | waitStatefulSetUpdating n _ _ => n
  | waitPodTerminating n _ _ _ => n
  end.

(** ** Events: the calls the handler makes, in order *)

Inductive Event :=
| EvLog (msg : string)
| EvGetRedisClusterBackup (ns name : string)
| EvEnsureRedisConfigMap
| EvEnsureRedisStatefulsets (updated : bool) (err : option error)
| EvWaiting (w : waiter)
| EvEnsureRedisHeadLessSvcs
| EvEnsureRedisSvc
| EvEnsureRedisOSMSecret
| EvFixTerminatingPods (maxDuration : Duration)
| EvCheckRedisNodeNum
| EvGetClusterInfos (ok : bool)
| EvAttachNodeToCluster (addr : string)
| EvSleep (d : Duration)
| EvDispatchMasters
| EvPlaceSlaves
| EvAttachingSlavesToMaster
| EvAllocSlots
| EvRebalancedCluster
| EvDispatchSlotToNewMasters
| EvConnectionsRemove (addr : string)
| EvGetStatefulSet (ns name : string) (ok : bool)
| EvForgetNode (id : string)
| EvDeleteStatefulSetByName (ns name : string)
| EvDeleteServiceByName (ns name : string)
| EvDeletePodDisruptionBudgetByName (ns name : string)
| EvDeletePvcByLabels (ns : string) (labels : LabelSet).

Definition Trace := list Event.

(** ** The collaborators

    Each method answers from the trace of the calls made before it. A Go
    result [(v, err)] is a sum, a result [err] an option ([None] is nil). *)

Record ICustomResource := {
  GetRedisClusterBackup : Trace -> string -> string -> error + RedisClusterBackup.t
}.

Record IEnsureResource := {
  EnsureRedisConfigMap : Trace -> DistributedRedisCluster -> LabelSet -> option error;
  EnsureRedisStatefulsets :
    Trace -> DistributedRedisCluster -> option RedisClusterBackup.t -> LabelSet ->
    bool * option error;
  EnsureRedisHeadLessSvcs : Trace -> DistributedRedisCluster -> LabelSet -> option error;
  EnsureRedisSvc : Trace -> DistributedRedisCluster -> LabelSet -> option error;
  EnsureRedisOSMSecret :
    Trace -> DistributedRedisCluster -> option RedisClusterBackup.t -> LabelSet ->
    option error
}.

Record ICheck := {
  CheckRedisNodeNum : Trace -> DistributedRedisCluster -> option error
}.

Record IStatefulSetControl := {
  GetStatefulSet : Trace -> string -> string -> error + StatefulSet;
  DeleteStatefulSetByName : Trace -> string -> string -> option error;
  (** whether the condition a waiter polls for fails to hold in time *)
  pollTimesOut : Trace -> waiter -> bool
}.

Record IServiceControl := {
  DeleteServiceByName : Trace -> string -> string -> option error
}.

Record IPodDisruptionBudgetControl := {
  DeletePodDisruptionBudgetByName : Trace -> string -> string -> option error
}.

Record IPvcControl := {
  DeletePvcByLabels : Trace -> string -> LabelSet -> option error
}.

Record IAdmin := {
  GetClusterInfos : Trace -> error + ClusterInfos;
  AttachNodeToCluster : Trace -> string -> option error;
  ForgetNode : Trace -> string -> option error
}.

Record IHeal := {
  FixTerminatingPods : Trace -> DistributedRedisCluster -> Duration -> bool * option error
}.

(** The plan of package [clustering]: [clustering.NewCtx] and its methods. *)
Record ClusteringCtx := {
  DispatchMasters : Trace -> option error;
  GetCurrentMasters : Trace -> Nodes;
  GetNewMasters : Trace -> Nodes;
  PlaceSlaves : Trace -> option error;
  AttachingSlavesToMaster : Trace -> option error;
  AllocSlots : Trace -> Nodes -> option error;
  RebalancedCluster : Trace -> Nodes -> option error;
  DispatchSlotToNewMasters : Trace -> Nodes -> Nodes -> Nodes -> option error;
  GetStatefulsetNodes : Trace -> gmap string Nodes
}.

(** The functions of other files and packages the handler calls, which have
    no effect of their own. *)
Record Helpers := {
  (** [cluster.Validate(reqLogger)]: the spec's own structural validation *)
  Validate : DistributedRedisCluster -> DistributedRedisCluster;
  getLabels : DistributedRedisCluster -> LabelSet;
  (** [newRedisCluster], and [clustering.NewCtx] on what it returns *)
  newRedisCluster : option ClusterInfos -> DistributedRedisCluster -> error + ClusteringCtx;
  ClusterStatefulSetName : string -> Z -> string;
  ClusterHeadlessSvcName : string -> Z -> string;
  (** [node.IPPort()] and [node.String()] on a node that is not nil *)
  IPPort : Node -> string;
  Node_String : Node -> string;
  (** the place where a [range] over a map starts; Go leaves it open *)
  rangeStart : Trace -> nat
}.

Record ReconcileDistributedRedisCluster := {
  helpers : Helpers;
  crController : ICustomResource;
  ensurer : IEnsureResource;
  checker : ICheck;
  statefulSetController : IStatefulSetControl;
  serviceController : IServiceControl;
  pdbController : IPodDisruptionBudgetControl;
  pvcController : IPvcControl
}.

(** [syncContext] without its [cluster], which is in the state, and without
    the logger and the pods, which the handler does not read. [clusterInfos]
    is a pointer: [None] is nil. *)
Record syncContext := {
  clusterInfos : option ClusterInfos;
  admin : IAdmin;
  healer : IHeal
}.

(** ** The monad of a reconcile tick *)

Record State := mkState {
  st_cluster : DistributedRedisCluster;
  st_trace : Trace
}.

(** A Go function that returns [error] returns [Ok tt] for nil and [Fail err]
    otherwise; [Panic] is a run-time fault. *)
Inductive Result (A : Type) :=
| Ok (a : A)
| Fail (err : error)
| Panic (msg : string).

Arguments Ok {A} a.
Arguments Fail {A} err.
Arguments Panic {A} msg.

Definition M (A : Type) : Type := State -> Result A * State.

Definition ret {A} (a : A) : M A := fun s => (Ok a, s).

Definition bind {A B} (m : M A) (f : A -> M B) : M B :=
  fun s =>
    match m s with
    | (Ok a, s') => f a s'
    | (Fail err, s') => (Fail err, s')
    | (Panic msg, s') => (Panic msg, s')
    end.

Declare Scope tick_scope.
Delimit Scope tick_scope with tick.
Notation "x <- m ;; k" := (bind m (fun x => k))
  (at level 100, m at next level, k at level 200, right associativity) : tick_scope.
Notation "m ;;; k" := (bind m (fun _ => k))
  (at level 100, k at level 200, right associativity) : tick_scope.
Local Open Scope tick_scope.

Definition returnErr {A} (err : error) : M A := fun s => (Fail err, s).
Definition panic {A} (msg : string) : M A := fun s => (Panic msg, s).

Definition getCluster : M DistributedRedisCluster := fun s => (Ok (st_cluster s), s).
Definition getTrace : M Trace := fun s => (Ok (st_trace s), s).

Definition modifyCluster (f : DistributedRedisCluster -> DistributedRedisCluster) : M unit :=
  fun s => (Ok tt, mkState (f (st_cluster s)) (st_trace s)).

Definition emit (ev : Event) : M unit :=
  fun s => (Ok tt, mkState (st_cluster s) (st_trace s ++ [ev])).

(** A call of a collaborator: it answers from the trace so far, and the call
    is added to the trace. *)
Definition call {R} (method : Trace -> R) (ev : R -> Event) : M R :=
  fun s =>
    let res := method (st_trace s) in
    (Ok res, mkState (st_cluster s) (st_trace s ++ [ev res])).

(** [if err != nil { return wrapped }] *)
Definition check (err : option error) (wrapped : error -> error) : M unit :=
  match err with
  | Some e => returnErr (wrapped e)
  | None => ret tt
  end.

(** [err := f(...)] for a function of this file: the returned error as a
    value. *)
Definition errorOf (m : M unit) : M (option error) :=
  fun s =>
    match m s with
    | (Ok _, s') => (Ok None, s')
    | (Fail err, s') => (Ok (Some err), s')
    | (Panic msg, s') => (Panic msg, s')
    end.

(** [for _, x := range l { body }], over a slice. *)
Fixpoint forRange {A} (l : list A) (body : A -> M unit) : M unit :=
  match l with
  | [] => ret tt
  | x :: l' => body x ;;; forRange l' body
  end.

(** The values [i] takes in [for i := hi; i >= lo; i--]. *)
Definition countdown (hi lo : Z) : list Z :=
  map (fun k => hi - Z.of_nat k) (seq 0 (Z.to_nat (hi - lo + 1))).

(** [m[key]] on a map of slices: nil when the key is absent. *)
Definition index (m : gmap string Nodes) (key : string) : Nodes :=
  default [] (m !! key).

(** The entry a [range] over a map visits first, [None] on an empty map. *)
Definition rangeFirst {V} (start : nat) (m : gmap string V) : option (string * V) :=
  let entries := map_to_list m in
  nth_error entries (start mod length entries)%nat.

Definition run {A} (m : M A) (s : State) : Result A := fst (m s).
Definition exec {A} (m : M A) (s : State) : State := snd (m s).

(** The events a program adds to the trace. *)
Definition newEvents {A} (m : M A) (s : State) : Trace :=
  drop (length (st_trace s)) (st_trace (exec m s)).

(** ** waiting (wait.go) *)

(** Modelled from the spec: [waiting], of wait.go, is not among the sources.
    Sections 4.3 and 5: it polls the waiter's condition at its tick and fails
    "with a timeout-classified error if the overall timeout elapses first",
    "surfaced as a Requeue-classified" condition. *)
Definition waiting (r : ReconcileDistributedRedisCluster) (w : waiter) : M unit :=
  timedOut <- call (fun tr => pollTimesOut (statefulSetController r) tr w)
                   (fun _ => EvWaiting w) ;;
  if timedOut then returnErr (New Requeue ("wait for " +:+ waiter_Name w +:+ " timeout"))
  else ret tt.

(** ** The handler *)

Section Handler.

Variable r : ReconcileDistributedRedisCluster.

(** [30 * time.Second * time.Duration(cluster.Spec.ClusterReplicas+2)] *)
Definition waitTimeout (cluster : DistributedRedisCluster) : Duration :=
  Duration_mul (30 * Second) (int32_add (ClusterReplicas (Spec cluster)) 2).

Definition validate : M unit :=
  cluster <- getCluster ;;
  let initSpec := Init (Spec cluster) in
  match initSpec with
  | Some initSpec =>
    match BackupSource initSpec with
    | None => returnErr (Errorf "backupSource is required")
    | Some source =>
      let ns := BackupSourceSpec.Namespace source in
      let name := BackupSourceSpec.Name source in
      res <- call (fun tr => GetRedisClusterBackup (crController r) tr ns name)
                  (fun _ => EvGetRedisClusterBackup ns name) ;;
      match res with
      | inl err => returnErr err
      | inr backup =>
        let status := RedisClusterBackup.Status backup in
        match RedisClusterBackupStatus.Phase status with
        | BackupPhaseOther _ => returnErr (Errorf "backup is still running")
        | BackupPhaseSucceeded =>
          (if String.eqb (Image (Spec cluster)) ""
           then modifyCluster
                  (fun c => set_Image c (RedisClusterBackupStatus.ClusterImage status))
           else ret tt) ;;;
          modifyCluster
            (fun c => set_MasterSize c (RedisClusterBackupStatus.MasterSize status)) ;;;
          if RestoreSucceeded (Status cluster) <=? 0
          then modifyCluster (fun c => set_ClusterReplicas c 0)
          else modifyCluster
                 (fun c => set_ClusterReplicas c
                             (RedisClusterBackupStatus.ClusterReplicas status))
        end
      end
    end
  | None => ret tt
  end ;;;
  modifyCluster (Validate (helpers r)).

Definition ensureCluster (ctx : syncContext) : M unit :=
  verr <- errorOf validate ;;
  match verr with
  | Some err =>
    if IsRequestRetryable err
    then returnErr (Wrap Kubernetes err "Validate")
    else returnErr (Wrap StopRetry err "stop retry")
  | None => ret tt
  end ;;;
  cluster <- getCluster ;;
  let labels := getLabels (helpers r) cluster in
  backup <- match Init (Spec cluster) with
            | Some initSpec =>
              match BackupSource initSpec with
              | None => panic "nil pointer dereference"
              | Some source =>
                let ns := BackupSourceSpec.Namespace source in
                let name := BackupSourceSpec.Name source in
                res <- call (fun tr => GetRedisClusterBackup (crController r) tr ns name)
                            (fun _ => EvGetRedisClusterBackup ns name) ;;
                match res with
                | inl err => returnErr err
                | inr backup => ret (Some backup)
                end
              end
            | None => ret None
            end ;;
  err <- call (fun tr => EnsureRedisConfigMap (ensurer r) tr cluster labels)
              (fun _ => EvEnsureRedisConfigMap) ;;
  check err (fun err => Wrap Kubernetes err "EnsureRedisConfigMap") ;;;
  res <- call (fun tr => EnsureRedisStatefulsets (ensurer r) tr cluster backup labels)
              (fun res => EvEnsureRedisStatefulsets (fst res) (snd res)) ;;
  match res with
  | (_, Some err) =>
    emit (EvLog "EnsureRedisStatefulSets") ;;;
    returnErr (Wrap Kubernetes err "EnsureRedisStatefulSets")
  | (true, None) =>
    let waiter := waitStatefulSetUpdating "waitStatefulSetUpdating"
                    (waitTimeout cluster) (5 * Second) in
    waiting r waiter
  | (false, None) => ret tt
  end ;;;
  err <- call (fun tr => EnsureRedisHeadLessSvcs (ensurer r) tr cluster labels)
              (fun _ => EvEnsureRedisHeadLessSvcs) ;;
  check err (fun err => Wrap Kubernetes err "EnsureRedisHeadLessSvcs") ;;;
  err <- call (fun tr => EnsureRedisSvc (ensurer r) tr cluster labels)
              (fun _ => EvEnsureRedisSvc) ;;
  check err (fun err => Wrap Kubernetes err "EnsureRedisSvc") ;;;
  err <- call (fun tr => EnsureRedisOSMSecret (ensurer r) tr cluster backup labels)
              (fun _ => EvEnsureRedisOSMSecret) ;;
  match err with
  | Some err =>
    if IsRequestRetryable err
    then returnErr (Wrap Kubernetes err "EnsureRedisOSMSecret")
    else returnErr (Wrap StopRetry err "stop retry")
  | None => ret tt
  end.

Definition waitPodReady (ctx : syncContext) : M unit :=
  cluster <- getCluster ;;
  res <- call (fun tr => FixTerminatingPods (healer ctx) tr cluster (5 * Minute))
              (fun _ => EvFixTerminatingPods (5 * Minute)) ;;
  check (snd res) (fun err => Wrap Kubernetes err "FixTerminatingPods") ;;;
  err <- call (fun tr => CheckRedisNodeNum (checker r) tr cluster)
              (fun _ => EvCheckRedisNodeNum) ;;
  check err (fun err => Wrap Requeue err "CheckRedisNodeNum").

Definition isOk {E A} (res : E + A) : bool :=
  match res with inr _ => true | inl _ => false end.

Definition meetLog : string := ">>> Sending CLUSTER MEET messages to join the cluster".

Definition waitForClusterJoin (ctx : syncContext) : M unit :=
  res <- call (GetClusterInfos (admin ctx)) (fun res => EvGetClusterInfos (isOk res)) ;;
  match res with
  | inr infos => emit (EvLog "debug waitForClusterJoin")
  | inl _ =>
    tr <- getTrace ;;
    firstNode <- match clusterInfos ctx with
                 | Some infos =>
                   ret (match rangeFirst (rangeStart (helpers r) tr) (Infos infos) with
                        | Some (_, nodeInfo) => NodeInfos_Node nodeInfo
                        | None => None
                        end)
                 | None => panic "nil pointer dereference"
                 end ;;
    emit (EvLog meetLog) ;;;
    addr <- match firstNode with
            | Some node => ret (IPPort (helpers r) node)
            | None => panic "nil pointer dereference"
            end ;;
    err <- call (fun tr => AttachNodeToCluster (admin ctx) tr addr)
                (fun _ => EvAttachNodeToCluster addr) ;;
    check err (fun err => Wrap Redis err "AttachNodeToCluster") ;;;
    emit (EvSleep (1 * Second)) ;;;
    res <- call (GetClusterInfos (admin ctx)) (fun res => EvGetClusterInfos (isOk res)) ;;
    match res with
    | inl err => returnErr (Wrap Requeue err "wait for cluster join")
    | inr _ => ret tt
    end
  end.

(** The first pass of [scalingDown], on group [i]. *)
Definition removeConnections (cluster : DistributedRedisCluster)
    (statefulSetNodes : gmap string Nodes) (i : Z) : M unit :=
  let stsName := ClusterStatefulSetName (helpers r) (Name cluster) i in
  forRange (index statefulSetNodes stsName)
    (fun node => emit (EvConnectionsRemove (IPPort (helpers r) node))).

Definition forgetNode (ctx : syncContext) (node : Node) : M unit :=
  emit (EvLog "forgetNode") ;;;
  if (0 <? Z.of_nat (length (Slots node)))
  then returnErr (New Redis ("node " +:+ Node_String (helpers r) node +:+
                             " is not empty! Reshard data away and try again"))
  else
    err <- call (fun tr => ForgetNode (admin ctx) tr (ID node))
                (fun _ => EvForgetNode (ID node)) ;;
    check err (fun err => Wrap Redis err "ForgetNode").

(** [if err := del(...); err != nil { reqLogger.Error(err, what) }] *)
Definition logged (what : string) (err : option error) : M unit :=
  match err with
  | Some _ => emit (EvLog what)
  | None => ret tt
  end.

(** The second pass of [scalingDown], on group [i]. *)
Definition retireGroup (ctx : syncContext) (cluster : DistributedRedisCluster)
    (statefulSetNodes : gmap string Nodes) (i : Z) : M unit :=
  let ns := Namespace cluster in
  let stsName := ClusterStatefulSetName (helpers r) (Name cluster) i in
  emit (EvLog "scaling down") ;;;
  res <- call (fun tr => GetStatefulSet (statefulSetController r) tr ns stsName)
              (fun res => EvGetStatefulSet ns stsName (isOk res)) ;;
  match res with
  | inl err => returnErr (Wrap Kubernetes err "GetStatefulSet")
  | inr sts =>
    forRange (index statefulSetNodes stsName) (forgetNode ctx) ;;;
    err <- call (fun tr => DeleteStatefulSetByName (statefulSetController r) tr ns stsName)
                (fun _ => EvDeleteStatefulSetByName ns stsName) ;;
    logged "DeleteStatefulSetByName" err ;;;
    let svcName := ClusterHeadlessSvcName (helpers r) (Name cluster) i in
    err <- call (fun tr => DeleteServiceByName (serviceController r) tr ns svcName)
                (fun _ => EvDeleteServiceByName ns svcName) ;;
    logged "DeleteServiceByName" err ;;;
    err <- call (fun tr => DeletePodDisruptionBudgetByName (pdbController r) tr ns stsName)
                (fun _ => EvDeletePodDisruptionBudgetByName ns stsName) ;;
    logged "DeletePodDisruptionBudgetByName" err ;;;
    err <- call (fun tr => DeletePvcByLabels (pvcController r) tr ns (Labels sts))
                (fun _ => EvDeletePvcByLabels ns (Labels sts)) ;;
    logged "DeletePvcByLabels" err ;;;
    let waiter := waitPodTerminating "waitPodTerminating" stsName
                    (waitTimeout cluster) (5 * Second) in
    err <- errorOf (waiting r waiter) ;;
    logged "waitPodTerminating" err
  end.

Definition scalingDown (ctx : syncContext) (currentMasterNum : Z)
    (statefulSetNodes : gmap string Nodes) : M unit :=
  cluster <- getCluster ;;
  let expectMasterNum := MasterSize (Spec cluster) in
  forRange (countdown (int_sub currentMasterNum 1) expectMasterNum)
    (removeConnections cluster statefulSetNodes) ;;;
  forRange (countdown (int_sub currentMasterNum 1) expectMasterNum)
    (retireGroup ctx cluster statefulSetNodes).

Definition len {A} (l : list A) : Z := Z.of_nat (length l).

Definition syncCluster (ctx : syncContext) : M unit :=
  cluster <- getCluster ;;
  let expectMasterNum := MasterSize (Spec cluster) in
  match newRedisCluster (helpers r) (clusterInfos ctx) cluster with
  | inl err => returnErr (Wrap Cluster err "newRedisCluster")
  | inr clusterCtx =>
    err <- call (DispatchMasters clusterCtx) (fun _ => EvDispatchMasters) ;;
    check err (fun err => Wrap Cluster err "DispatchMasters") ;;;
    tr <- getTrace ;;
    let curMasters := GetCurrentMasters clusterCtx tr in
    let newMasters := GetNewMasters clusterCtx tr in
    emit (EvLog "masters") ;;;
    if len curMasters =? 0 then
      emit (EvLog "Creating cluster") ;;;
      err <- call (PlaceSlaves clusterCtx) (fun _ => EvPlaceSlaves) ;;
      check err (fun err => Wrap Cluster err "PlaceSlaves") ;;;
      err <- call (AttachingSlavesToMaster clusterCtx) (fun _ => EvAttachingSlavesToMaster) ;;
      check err (fun err => Wrap Cluster err "AttachingSlavesToMaster") ;;;
      err <- call (fun tr => AllocSlots clusterCtx tr newMasters) (fun _ => EvAllocSlots) ;;
      check err (fun err => Wrap Cluster err "AllocSlots")
    else if len curMasters <? len newMasters then
      emit (EvLog "Scaling up") ;;;
      err <- call (PlaceSlaves clusterCtx) (fun _ => EvPlaceSlaves) ;;
      check err (fun err => Wrap Cluster err "PlaceSlaves") ;;;
      err <- call (AttachingSlavesToMaster clusterCtx) (fun _ => EvAttachingSlavesToMaster) ;;
      check err (fun err => Wrap Cluster err "AttachingSlavesToMaster") ;;;
      err <- call (fun tr => RebalancedCluster clusterCtx tr newMasters)
                  (fun _ => EvRebalancedCluster) ;;
      check err (fun err => Wrap Cluster err "RebalancedCluster")
    else if MinReplicationFactor (Status cluster) <? ClusterReplicas (Spec cluster) then
      emit (EvLog "Scaling slave") ;;;
      err <- call (PlaceSlaves clusterCtx) (fun _ => EvPlaceSlaves) ;;
      check err (fun err => Wrap Cluster err "PlaceSlaves") ;;;
      err <- call (AttachingSlavesToMaster clusterCtx) (fun _ => EvAttachingSlavesToMaster) ;;
      check err (fun err => Wrap Cluster err "AttachingSlavesToMaster")
    else if expectMasterNum <? len curMasters then
      emit (EvLog "Scaling down") ;;;
      let allMaster := newMasters ++ curMasters in
      err <- call (fun tr => DispatchSlotToNewMasters clusterCtx tr newMasters curMasters allMaster)
                  (fun _ => EvDispatchSlotToNewMasters) ;;
      check err (fun err => err) ;;;
      tr <- getTrace ;;
      scalingDown ctx (len curMasters) (GetStatefulsetNodes clusterCtx tr)
    else ret tt
  end.

End Handler.

(** ** Vocabulary of the statements *)

(** What [validate] has assigned through the cluster pointer, from the status
    [b] of a backup that succeeded, when it hands the cluster to its own
    [Validate]. *)
Definition restoredFrom (b : RedisClusterBackupStatus.t) (c : DistributedRedisCluster) :
    DistributedRedisCluster :=
  {| Name := Name c;
     Namespace := Namespace c;
     Spec := {| Image := if String.eqb (Image (Spec c)) ""
                         then RedisClusterBackupStatus.ClusterImage b
                         else Image (Spec c);
                MasterSize := RedisClusterBackupStatus.MasterSize b;
                ClusterReplicas := if RestoreSucceeded (Status c) <=? 0 then 0
                                   else RedisClusterBackupStatus.ClusterReplicas b;
                Init := Init (Spec c) |};
     Status := Status c |}.

(** The state after the backup record named by [source] was asked for. *)
Definition fetched (s : State) (source : BackupSourceSpec.t) : State :=
  mkState (st_cluster s)
    (st_trace s ++ [EvGetRedisClusterBackup (BackupSourceSpec.Namespace source)
                                           (BackupSourceSpec.Name source)]).

(** The cases of [validate], by what the spec asks for and what the backup
    controller answers. *)
Inductive validateCase (r : ReconcileDistributedRedisCluster) (s : State) :
    Result unit * State -> Prop :=
| vc_no_init :
    Init (Spec (st_cluster s)) = None ->
    validateCase r s (Ok tt, mkState (Validate (helpers r) (st_cluster s)) (st_trace s))
| vc_no_source :
    Init (Spec (st_cluster s)) = Some {| BackupSource := None |} ->
    validateCase r s (Fail (Errorf "backupSource is required"), s)
| vc_fetch_fails source err :
    Init (Spec (st_cluster s)) = Some {| BackupSource := Some source |} ->
    GetRedisClusterBackup (crController r) (st_trace s)
      (BackupSourceSpec.Namespace source) (BackupSourceSpec.Name source) = inl err ->
    validateCase r s (Fail err, fetched s source)
| vc_not_succeeded source backup :
    Init (Spec (st_cluster s)) = Some {| BackupSource := Some source |} ->
    GetRedisClusterBackup (crController r) (st_trace s)
      (BackupSourceSpec.Namespace source) (BackupSourceSpec.Name source) = inr backup ->
    RedisClusterBackupStatus.Phase (RedisClusterBackup.Status backup) <> BackupPhaseSucceeded ->
    validateCase r s (Fail (Errorf "backup is still running"), fetched s source)
| vc_succeeded source backup :
    Init (Spec (st_cluster s)) = Some {| BackupSource := Some source |} ->
    GetRedisClusterBackup (crController r) (st_trace s)
      (BackupSourceSpec.Namespace source) (BackupSourceSpec.Name source) = inr backup ->
    RedisClusterBackupStatus.Phase (RedisClusterBackup.Status backup) = BackupPhaseSucceeded ->
    validateCase r s
      (Ok tt,
       mkState (Validate (helpers r)
                  (restoredFrom (RedisClusterBackup.Status backup) (st_cluster s)))
               (st_trace (fetched s source))).

(** A program adds the events [evs] to the trace and leaves the cluster. *)
Definition adds {A} (m : M A) (s : State) (evs : Trace) : Prop :=
  exec m s = mkState (st_cluster s) (st_trace s ++ evs).

(** The four branches of [syncCluster], each announced in the log. *)
Inductive Branch := Bootstrap | ScaleUp | ScaleReplicas | ScaleDown.

Definition branchOfEvent (ev : Event) : option Branch :=
  match ev with
  | EvLog msg =>
    if String.eqb msg "Creating cluster" then Some Bootstrap
    else if String.eqb msg "Scaling up" then Some ScaleUp
    else if String.eqb msg "Scaling slave" then Some ScaleReplicas
    else if String.eqb msg "Scaling down" then Some ScaleDown
    else None
  | _ => None
  end.

(** The branches entered in a trace, in order. *)
Definition branchesRun (evs : Trace) : list Branch := omap branchOfEvent evs.

(** The branch the conditions of [syncCluster] select, from the numbers of
    current and new masters, the replication factor observed and wanted, and
    the master count of the spec. *)
Definition branchTaken (cur new minFactor replicas expect : Z) : list Branch :=
  if cur =? 0 then [Bootstrap]
  else if cur <? new then [ScaleUp]
  else if minFactor <? replicas then [ScaleReplicas]
  else if expect <? cur then [ScaleDown]
  else [].

Definition isConnectionsRemove (ev : Event) : bool :=
  match ev with EvConnectionsRemove _ => true | _ => false end.

Definition isDeletion (ev : Event) : bool :=
  match ev with
  | EvDeleteStatefulSetByName _ _ | EvDeleteServiceByName _ _
  | EvDeletePodDisruptionBudgetByName _ _ | EvDeletePvcByLabels _ _ => true
  | _ => false
  end.

Definition isForget (ev : Event) : bool :=
  match ev with EvForgetNode _ => true | _ => false end.

(** The names of the stateful sets deleted in a trace, in order. *)
Definition deletedSets (evs : Trace) : list string :=
  omap (fun ev => match ev with
                  | EvDeleteStatefulSetByName _ name => Some name
                  | _ => None
                  end) evs.

Section Groups.

Variable h : Helpers.
Variable cluster : DistributedRedisCluster.
Variable statefulSetNodes : gmap string Nodes.
(** [GetStatefulSet] of the stateful set controller. *)
Variable lookup : Trace -> string -> string -> error + StatefulSet.

(** The nodes of the group of ordinal [i]. *)
Definition groupNodes (i : Z) : Nodes :=
  index statefulSetNodes (ClusterStatefulSetName h (Name cluster) i).

(** The removals from the connection pool for the groups [ords], in order. *)
Definition removals (ords : list Z) : Trace :=
  flat_map (fun i => map (fun node => EvConnectionsRemove (IPPort h node)) (groupNodes i)) ords.

(** [ev] deletes a resource of the group of ordinal [i]: its stateful set,
    its headless service or its disruption budget, by the name the ordinal
    gives, or the storage claims that carry the labels of its stateful set,
    as [lookup] returned it. *)
Definition deletionFor (i : Z) (ev : Event) : Prop :=
  let ns := Namespace cluster in
  let stsName := ClusterStatefulSetName h (Name cluster) i in
  ev = EvDeleteStatefulSetByName ns stsName \/
  ev = EvDeleteServiceByName ns (ClusterHeadlessSvcName h (Name cluster) i) \/
  ev = EvDeletePodDisruptionBudgetByName ns stsName \/
  exists tr sts, lookup tr ns stsName = inr sts /\ ev = EvDeletePvcByLabels ns (Labels sts).

Definition emptyGroup (i : Z) : Prop :=
  Forall (fun node => Slots node = []) (groupNodes i).

(** [ev] is a log line or asks to forget one of [nodes] that holds no slot. *)
Definition forgetEvent (nodes : Nodes) (ev : Event) : Prop :=
  ev = EvLog "forgetNode" \/
  exists node, In node nodes /\ Slots node = [] /\ ev = EvForgetNode (ID node).

(** What an event of the second pass on the group of ordinal [i] may be: no
    removal from the connection pool, no announcement of a branch, a forget
    request only for a node of the group that holds no slot, a deletion only
    of a resource of the group, and only when no node of the group holds a
    slot, a lookup only of the stateful set of the group. *)
Definition retireEvent (i : Z) (ev : Event) : Prop :=
  isConnectionsRemove ev = false /\
  branchOfEvent ev = None /\
  (forall id, ev = EvForgetNode id ->
     exists node, In node (groupNodes i) /\ Slots node = [] /\ ID node = id) /\
  (isDeletion ev = true -> deletionFor i ev /\ emptyGroup i) /\
  (forall ns name ok, ev = EvGetStatefulSet ns name ok ->
     name = ClusterStatefulSetName h (Name cluster) i).

End Groups.

(** ** Scenarios: concrete collaborators and inputs *)

Module Scenario.

Definition helpers0 : Helpers := {|
  Validate := fun c => c;
  getLabels := fun c => [("redis.kun/name", Name c)];
  newRedisCluster := fun _ _ => inl (Errorf "no node");
  ClusterStatefulSetName := fun name i => "drc-" +:+ name +:+ "-" +:+ pretty i;
  ClusterHeadlessSvcName := fun name i => name +:+ "-" +:+ pretty i;
  IPPort := fun node => IP node +:+ ":" +:+ Port node;
  Node_String := fun node => ID node;
  rangeStart := fun _ => 0%nat
|}.

(** A reconciler whose platform calls all succeed, but for the backup
    controller, which answers [fetch], and the stateful set controller, whose
    lookup answers [getSts]; the stateful sets ensure step reports [updated]. *)
Definition reconciler (h : Helpers)
    (fetch : Trace -> string -> string -> error + RedisClusterBackup.t)
    (getSts : Trace -> string -> string -> error + StatefulSet)
    (updated : bool) : ReconcileDistributedRedisCluster := {|
  helpers := h;
  crController := {| GetRedisClusterBackup := fetch |};
  ensurer := {| EnsureRedisConfigMap := fun _ _ _ => None;
                EnsureRedisStatefulsets := fun _ _ _ _ => (updated, None);
                EnsureRedisHeadLessSvcs := fun _ _ _ => None;
                EnsureRedisSvc := fun _ _ _ => None;
                EnsureRedisOSMSecret := fun _ _ _ _ => None |};
  checker := {| CheckRedisNodeNum := fun _ _ => None |};
  statefulSetController := {| GetStatefulSet := getSts;
                              DeleteStatefulSetByName := fun _ _ _ => None;
                              pollTimesOut := fun _ _ => false |};
  serviceController := {| DeleteServiceByName := fun _ _ _ => None |};
  pdbController := {| DeletePodDisruptionBudgetByName := fun _ _ _ => None |};
  pvcController := {| DeletePvcByLabels := fun _ _ _ => None |}
|}.

Definition stsFound : Trace -> string -> string -> error + StatefulSet :=
  fun _ _ _ => inr {| Labels := [] |}.

Definition backup (phase : BackupPhase) : RedisClusterBackup.t :=
  RedisClusterBackup.mk (RedisClusterBackupStatus.mk phase "redis:4" 5 1).

Definition fetchOk (phase : BackupPhase) : Trace -> string -> string -> error + RedisClusterBackup.t :=
  fun _ _ _ => inr (backup phase).

Definition fetchFails (err : error) : Trace -> string -> string -> error + RedisClusterBackup.t :=
  fun _ _ _ => inl err.

(** The record is found when first asked for and gone afterwards. *)
Definition fetchOnce : Trace -> string -> string -> error + RedisClusterBackup.t :=
  fun tr _ _ =>
    match tr with
    | [] => inr (backup BackupPhaseSucceeded)
    | _ => inl (ApiError false "redisclusterbackups not found")
    end.

Definition fromBackup : option InitSpec :=
  Some {| BackupSource := Some (BackupSourceSpec.mk "ns" "b") |}.

Definition noSource : option InitSpec := Some {| BackupSource := None |}.

(** A cluster "c" of three masters with one replica each. *)
Definition cluster (init : option InitSpec) (restored minFactor : Z) : DistributedRedisCluster := {|
  Name := "c";
  Namespace := "ns";
  Spec := {| Image := "redis:5"; MasterSize := 3; ClusterReplicas := 1; Init := init |};
  Status := {| RestoreSucceeded := restored; MinReplicationFactor := minFactor |}
|}.

Definition start (c : DistributedRedisCluster) : State := mkState c [].

Definition adminOf (query : Trace -> error + ClusterInfos) (attach forget : option error) : IAdmin := {|
  GetClusterInfos := query;
  AttachNodeToCluster := fun _ _ => attach;
  ForgetNode := fun _ _ => forget
|}.

Definition healer0 : IHeal := {| FixTerminatingPods := fun _ _ _ => (false, None) |}.

Definition queryFails : Trace -> error + ClusterInfos := fun _ => inl (Errorf "connection refused").

Definition context (infos : gmap string NodeInfos) (a : IAdmin) : syncContext :=
  {| clusterInfos := Some {| Infos := infos |}; admin := a; healer := healer0 |}.


Definition context0 : syncContext := context empty (adminOf queryFails None None).

End Scenario.

Module JoinScenario.
Import Scenario.

Definition replica : Node :=
  {| ID := "a"; IP := "10.0.0.1"; Port := "6379"; Role := "slave"; Slots := [] |}.

Definition snapshot : gmap string NodeInfos :=
  <["10.0.0.1:6379" := {| NodeInfos_Node := Some replica |}]> empty.

(** The topology query fails until the nodes have been told to meet. *)
Definition queryAfterMeet : Trace -> error + ClusterInfos :=
  fun tr =>
    if existsb (fun ev => match ev with EvSleep _ => true | _ => false end) tr
    then inr {| Infos := snapshot |}
    else inl (Errorf "connection refused").

Definition refused : error := Errorf "connection refused".

End JoinScenario.

Module ScaleDownScenario.
Import Scenario.

Definition replica : Node :=
  {| ID := "a"; IP := "10.0.0.4"; Port := "6379"; Role := "slave"; Slots := [] |}.

Definition master : Node :=
  {| ID := "b"; IP := "10.0.0.5"; Port := "6379"; Role := "master"; Slots := [5461] |}.

(** The group of ordinal 3, with a replica listed before its master, which
    still holds a slot. *)
Definition groups : gmap string Nodes := <["drc-c-3" := [replica; master]]> empty.

Definition reconciler0 : ReconcileDistributedRedisCluster :=
  reconciler helpers0 (fetchOk BackupPhaseSucceeded) stsFound false.

End ScaleDownScenario.

Module SyncScenario.
Import Scenario.

Definition masterOf (i : Z) : Node :=
  {| ID := "m" +:+ pretty i; IP := "10.0.0." +:+ pretty i; Port := "6379";
     Role := "master"; Slots := [i] |}.

(** A plan with [cur] current masters and [new] new masters, whose steps all
    succeed, but for the dispatch of the slots to the new masters, which
    answers [dispatched]. *)
Definition planWith (cur new : Z) (dispatched : option error) : ClusteringCtx := {|
  DispatchMasters := fun _ => None;
  GetCurrentMasters := fun _ => map masterOf (seqZ 0 cur);
  GetNewMasters := fun _ => map masterOf (seqZ 0 new);
  PlaceSlaves := fun _ => None;
  AttachingSlavesToMaster := fun _ => None;
  AllocSlots := fun _ _ => None;
  RebalancedCluster := fun _ _ => None;
  DispatchSlotToNewMasters := fun _ _ _ _ => dispatched;
  GetStatefulsetNodes := fun _ => empty
|}.

Definition plan (cur new : Z) : ClusteringCtx := planWith cur new None.

Definition migrationFailed : error := Errorf "migrate slots: connection reset".

Definition helpersWith (p : ClusteringCtx) : Helpers := {|
  Validate := Validate helpers0;
  getLabels := getLabels helpers0;
  newRedisCluster := fun _ _ => inr p;
  ClusterStatefulSetName := ClusterStatefulSetName helpers0;
  ClusterHeadlessSvcName := ClusterHeadlessSvcName helpers0;
  IPPort := IPPort helpers0;
  Node_String := Node_String helpers0;
  rangeStart := rangeStart helpers0
|}.

Definition reconcilerWith (p : ClusteringCtx) : ReconcileDistributedRedisCluster :=
  reconciler (helpersWith p) (fetchOk BackupPhaseSucceeded) stsFound false.

End SyncScenario.

(** ** Further vocabulary: the steps of ensureCluster and of a retirement *)

(** The ensure steps of [ensureCluster], in the order of the source. *)
Inductive Step := ConfigMapStep | StatefulSetsStep | HeadlessStep | ServiceStep | SecretStep.

Definition allSteps : list Step :=
  [ConfigMapStep; StatefulSetsStep; HeadlessStep; ServiceStep; SecretStep].

Definition stepOfEvent (ev : Event) : option Step :=
  match ev with
  | EvEnsureRedisConfigMap => Some ConfigMapStep
  | EvEnsureRedisStatefulsets _ _ => Some StatefulSetsStep
  | EvEnsureRedisHeadLessSvcs => Some HeadlessStep
  | EvEnsureRedisSvc => Some ServiceStep
  | EvEnsureRedisOSMSecret => Some SecretStep
  | _ => None
  end.

(** The ensure steps called in a trace, in order. *)
Definition stepsRun (evs : Trace) : list Step := omap stepOfEvent evs.

(** The backup record [ensureCluster] holds once [validate] has returned nil:
    the one it fetches again, for the source the spec names, if any. *)
Definition heldBackup (r : ReconcileDistributedRedisCluster) (s : State) :
    option RedisClusterBackup.t :=
  let validated := exec (validate r) s in
  match Init (Spec (st_cluster validated)) with
  | Some {| BackupSource := Some source |} =>
    match GetRedisClusterBackup (crController r) (st_trace validated)
            (BackupSourceSpec.Namespace source) (BackupSourceSpec.Name source) with
    | inr backup => Some backup
    | inl _ => None
    end
  | _ => None
  end.

(** The error, if any, that the ensurer answers when the ensure step [st] is
    called after the trace [tr], for [cluster] and [backup]. *)
Definition stepError (r : ReconcileDistributedRedisCluster) (cluster : DistributedRedisCluster)
    (backup : option RedisClusterBackup.t) (tr : Trace) (st : Step) : option error :=
  let labels := getLabels (helpers r) cluster in
  match st with
  | ConfigMapStep => EnsureRedisConfigMap (ensurer r) tr cluster labels
  | StatefulSetsStep => snd (EnsureRedisStatefulsets (ensurer r) tr cluster backup labels)
  | HeadlessStep => EnsureRedisHeadLessSvcs (ensurer r) tr cluster labels
  | ServiceStep => EnsureRedisSvc (ensurer r) tr cluster labels
  | SecretStep => EnsureRedisOSMSecret (ensurer r) tr cluster backup labels
  end.

(** [ev] retires something: it removes a connection, forgets a node or
    deletes a resource. *)
Definition isRetirement (ev : Event) : bool :=
  isConnectionsRemove ev || isForget ev || isDeletion ev.

Definition isSlotOperation (ev : Event) : bool :=
  match ev with
  | EvAllocSlots | EvRebalancedCluster | EvDispatchSlotToNewMasters => true
  | _ => false
  end.

(** The steps of a retirement: a forget request, the deletion of a stateful
    set, of a service, of a disruption budget, of storage claims (by labels,
    left out), and a wait. *)
Inductive RetireStep :=
| Forget (id : string)
| DeleteSet (name : string)
| DeleteService (name : string)
| DeleteBudget (name : string)
| DeleteClaims
| Wait (w : waiter).

Definition retireStep (ev : Event) : option RetireStep :=
  match ev with
  | EvForgetNode id => Some (Forget id)
  | EvDeleteStatefulSetByName _ name => Some (DeleteSet name)
  | EvDeleteServiceByName _ name => Some (DeleteService name)
  | EvDeletePodDisruptionBudgetByName _ name => Some (DeleteBudget name)
  | EvDeletePvcByLabels _ _ => Some DeleteClaims
  | EvWaiting w => Some (Wait w)
  | _ => None
  end.

(** The steps of retirement taken in a trace, in order. *)
Definition retireSteps (evs : Trace) : list RetireStep := omap retireStep evs.

(** The steps that retire the group of ordinal [i]: every node is forgotten,
    then the stateful set, the service, the disruption budget and the storage
    claims are deleted, then the pods are waited for. *)
Definition groupSteps (h : Helpers) (c : DistributedRedisCluster)
    (statefulSetNodes : gmap string Nodes) (i : Z) : list RetireStep :=
  let stsName := ClusterStatefulSetName h (Name c) i in
  map (fun node => Forget (ID node)) (groupNodes h c statefulSetNodes i) ++
  [DeleteSet stsName;
   DeleteService (ClusterHeadlessSvcName h (Name c) i);
   DeleteBudget stsName;
   DeleteClaims;
   Wait (waitPodTerminating "waitPodTerminating" stsName
           (Duration_mul (30 * Second) (int32_add (ClusterReplicas (Spec c)) 2))
           (5 * Second))].

(** The calls [scalingDown] makes: log lines, removals from the connection
    pool, lookups of stateful sets, forget requests, deletions and waits. *)
Definition isScalingDownEvent (ev : Event) : bool :=
  match ev with
  | EvLog _ | EvConnectionsRemove _ | EvGetStatefulSet _ _ _ | EvForgetNode _
  | EvDeleteStatefulSetByName _ _ | EvDeleteServiceByName _ _
  | EvDeletePodDisruptionBudgetByName _ _ | EvDeletePvcByLabels _ _ | EvWaiting _ => true
  | _ => false
  end.

(** A program adds only events that satisfy [P], and leaves the cluster. *)
Definition emits (P : Event -> Prop) {A} (m : M A) : Prop :=
  forall s, exists evs, adds m s evs /\ Forall P evs.

Module ExtraScenario.
Import Scenario.

Definition emptyMaster : Node :=
  {| ID := "d"; IP := "10.0.0.6"; Port := "6379"; Role := "master"; Slots := [] |}.

Definition emptyReplica : Node :=
  {| ID := "e"; IP := "10.0.0.7"; Port := "6379"; Role := "slave"; Slots := [] |}.

(** The group of ordinal 3, drained of its slots. *)
Definition drained : gmap string Nodes := <["drc-c-3" := [emptyReplica; emptyMaster]]> empty.

(** A reconciler whose deletions all fail and whose waits all time out. *)
Definition failingDeletes : ReconcileDistributedRedisCluster := {|
  helpers := helpers0;
  crController := {| GetRedisClusterBackup := fetchOk BackupPhaseSucceeded |};
  ensurer := {| EnsureRedisConfigMap := fun _ _ _ => None;
                EnsureRedisStatefulsets := fun _ _ _ _ => (false, None);
                EnsureRedisHeadLessSvcs := fun _ _ _ => None;
                EnsureRedisSvc := fun _ _ _ => None;
                EnsureRedisOSMSecret := fun _ _ _ _ => None |};
  checker := {| CheckRedisNodeNum := fun _ _ => None |};
  statefulSetController :=
    {| GetStatefulSet := stsFound;
       DeleteStatefulSetByName := fun _ _ _ => Some (ApiError true "timeout");
       pollTimesOut := fun _ _ => true |};
  serviceController := {| DeleteServiceByName := fun _ _ _ => Some (ApiError true "timeout") |};
  pdbController :=
    {| DeletePodDisruptionBudgetByName := fun _ _ _ => Some (ApiError true "timeout") |};
  pvcController := {| DeletePvcByLabels := fun _ _ _ => Some (ApiError true "timeout") |}
|}.

(** A reconciler whose services cannot be ensured. *)
Definition failingServices : ReconcileDistributedRedisCluster := {|
  helpers := helpers0;
  crController := {| GetRedisClusterBackup := fetchOk BackupPhaseSucceeded |};
  ensurer := {| EnsureRedisConfigMap := fun _ _ _ => None;
                EnsureRedisStatefulsets := fun _ _ _ _ => (false, None);
                EnsureRedisHeadLessSvcs := fun _ _ _ => Some (ApiError true "timeout");
                EnsureRedisSvc := fun _ _ _ => Some (ApiError true "timeout");
                EnsureRedisOSMSecret := fun _ _ _ _ => None |};
  checker := {| CheckRedisNodeNum := fun _ _ => None |};
  statefulSetController :=
    {| GetStatefulSet := stsFound;
       DeleteStatefulSetByName := fun _ _ _ => None;
       pollTimesOut := fun _ _ => false |};
  serviceController := {| DeleteServiceByName := fun _ _ _ => None |};
  pdbController := {| DeletePodDisruptionBudgetByName := fun _ _ _ => None |};
  pvcController := {| DeletePvcByLabels := fun _ _ _ => None |}
|}.

End ExtraScenario.

Module RetireScenario.
Import Scenario ScaleDownScenario ExtraScenario.






End RetireScenario.

(** * Properties *)

(** ** Arithmetic and the monad *)

Lemma wrap_small (bits z : Z) :
  0 < bits -> - 2 ^ (bits - 1) <= z < 2 ^ (bits - 1) -> wrap bits z = z.
Proof.
  intros Hb Hz. unfold wrap.
  assert (H2 : 2 ^ bits = 2 * 2 ^ (bits - 1)).
  { replace bits with (Z.succ (bits - 1)) at 1 by lia. rewrite Z.pow_succ_r; lia. }
  rewrite Z.mod_small; lia.
Qed.

Lemma int_sub_small (a b : Z) :
  min_int <= a - b <= max_int -> int_sub a b = a - b.
Proof.
  unfold int_sub, min_int, max_int. intros H. apply wrap_small; [lia|].
  change (64 - 1) with 63. lia.
Qed.

Lemma newEvents_app {A} (m : M A) (s : State) (evs : Trace) :
  st_trace (exec m s) = st_trace s ++ evs -> newEvents m s = evs.
Proof. unfold newEvents. intros ->. apply drop_app_length. Qed.

Lemma adds_newEvents {A} (m : M A) (s : State) (evs : Trace) :
  adds m s evs -> newEvents m s = evs.
Proof. unfold adds. intros H. apply newEvents_app. rewrite H. reflexivity. Qed.

Lemma adds_cluster {A} (m : M A) (s : State) (evs : Trace) :
  adds m s evs -> st_cluster (exec m s) = st_cluster s.
Proof. unfold adds. intros ->. reflexivity. Qed.

Lemma adds_unique {A} (m : M A) (s : State) (evs1 evs2 : Trace) :
  adds m s evs1 -> adds m s evs2 -> evs1 = evs2.
Proof.
  unfold adds. intros H1 H2. rewrite H1 in H2. injection H2 as H2.
  apply app_inv_head in H2. exact H2.
Qed.

Ltac unfold_tick :=
  unfold logged, check in *;
  unfold adds, run, exec, bind, call, errorOf, returnErr, panic, ret, emit,
    getCluster, getTrace, modifyCluster in *.

Lemma state_eta (s : State) : mkState (st_cluster s) (st_trace s) = s.
Proof. destruct s; reflexivity. Qed.

(** ** validate *)

Section ValidateFacts.

Variable r : ReconcileDistributedRedisCluster.

Lemma validate_no_init (s : State) :
  Init (Spec (st_cluster s)) = None ->
  validate r s = (Ok tt, mkState (Validate (helpers r) (st_cluster s)) (st_trace s)).
Proof.
  intros H. unfold validate. unfold_tick. rewrite H. reflexivity.
Qed.

Lemma validate_no_source (s : State) :
  Init (Spec (st_cluster s)) = Some {| BackupSource := None |} ->
  validate r s = (Fail (Errorf "backupSource is required"), s).
Proof.
  intros H. unfold validate. unfold_tick. rewrite H. reflexivity.
Qed.

Lemma validate_fetch_fails (s : State) source err :
  Init (Spec (st_cluster s)) = Some {| BackupSource := Some source |} ->
  GetRedisClusterBackup (crController r) (st_trace s)
    (BackupSourceSpec.Namespace source) (BackupSourceSpec.Name source) = inl err ->
  validate r s = (Fail err, fetched s source).
Proof.
  intros H G. unfold validate. unfold_tick. rewrite H. simpl. rewrite G. reflexivity.
Qed.

Lemma validate_not_succeeded (s : State) source backup :
  Init (Spec (st_cluster s)) = Some {| BackupSource := Some source |} ->
  GetRedisClusterBackup (crController r) (st_trace s)
    (BackupSourceSpec.Namespace source) (BackupSourceSpec.Name source) = inr backup ->
  RedisClusterBackupStatus.Phase (RedisClusterBackup.Status backup) <> BackupPhaseSucceeded ->
  validate r s = (Fail (Errorf "backup is still running"), fetched s source).
Proof.
  intros H G P. unfold validate. unfold_tick. rewrite H. simpl. rewrite G.
  destruct (RedisClusterBackupStatus.Phase _); [congruence | reflexivity].
Qed.

Lemma validate_succeeded (s : State) source backup :
  Init (Spec (st_cluster s)) = Some {| BackupSource := Some source |} ->
  GetRedisClusterBackup (crController r) (st_trace s)
    (BackupSourceSpec.Namespace source) (BackupSourceSpec.Name source) = inr backup ->
  RedisClusterBackupStatus.Phase (RedisClusterBackup.Status backup) = BackupPhaseSucceeded ->
  validate r s =
  (Ok tt,
   mkState (Validate (helpers r)
              (restoredFrom (RedisClusterBackup.Status backup) (st_cluster s)))
           (st_trace (fetched s source))).
Proof.
  intros H G P. unfold validate. unfold_tick. rewrite H. simpl. rewrite G, P.
  unfold restoredFrom, set_ClusterReplicas, set_MasterSize, set_Image, set_Spec.
  destruct (String.eqb _ _), (RestoreSucceeded _ <=? 0); reflexivity.
Qed.

Lemma validate_cases (s : State) : validateCase r s (validate r s).
Proof.
  destruct (Init (Spec (st_cluster s))) as [[[source|]]|] eqn:HI.
  - destruct (GetRedisClusterBackup (crController r) (st_trace s)
                (BackupSourceSpec.Namespace source) (BackupSourceSpec.Name source))
      as [err|backup] eqn:HG.
    + rewrite (validate_fetch_fails s source err HI HG). econstructor; eauto.
    + destruct (RedisClusterBackupStatus.Phase (RedisClusterBackup.Status backup)) eqn:HP.
      * rewrite (validate_succeeded s source backup HI HG HP). econstructor; eauto.
      * rewrite (validate_not_succeeded s source backup HI HG) by congruence.
        eapply vc_not_succeeded; eauto. congruence.
  - rewrite (validate_no_source s HI). constructor; auto.
  - rewrite (validate_no_init s HI). constructor; auto.
Qed.

End ValidateFacts.

(** ** ensureCluster: how a failed validation is classified *)

Section EnsureClusterValidation.

Variable r : ReconcileDistributedRedisCluster.
Variable ctx : syncContext.

Lemma ensureCluster_validate_fails (s s' : State) (err : error) :
  validate r s = (Fail err, s') ->
  ensureCluster r ctx s =
  (Fail (if IsRequestRetryable err then Wrap Kubernetes err "Validate"
         else Wrap StopRetry err "stop retry"), s').
Proof.
  intros H. unfold ensureCluster. unfold_tick. rewrite H.
  destruct (IsRequestRetryable err); reflexivity.
Qed.

(** C5, as the code has it: with a spec that asks for initialization from a
    backup, ensureCluster classifies a failed validation as StopRetry when no
    backup source is named, as Kubernetes (retryable) or StopRetry according
    to whether the error of the fetch is a retryable request failure when the
    backup record cannot be fetched, and as StopRetry when the backup fetched
    has not reached the succeeded phase. *)
Theorem ensureCluster_classifies_validation (s : State) (initSpec : InitSpec) :
  Init (Spec (st_cluster s)) = Some initSpec ->
  (BackupSource initSpec = None ->
   run (ensureCluster r ctx) s =
   Fail (Wrap StopRetry (Errorf "backupSource is required") "stop retry")) /\
  (forall source err,
     BackupSource initSpec = Some source ->
     GetRedisClusterBackup (crController r) (st_trace s)
       (BackupSourceSpec.Namespace source) (BackupSourceSpec.Name source) = inl err ->
     run (ensureCluster r ctx) s =
     Fail (if IsRequestRetryable err then Wrap Kubernetes err "Validate"
           else Wrap StopRetry err "stop retry")) /\
  (forall source backup,
     BackupSource initSpec = Some source ->
     GetRedisClusterBackup (crController r) (st_trace s)
       (BackupSourceSpec.Namespace source) (BackupSourceSpec.Name source) = inr backup ->
     RedisClusterBackupStatus.Phase (RedisClusterBackup.Status backup)
       <> BackupPhaseSucceeded ->
     run (ensureCluster r ctx) s =
     Fail (Wrap StopRetry (Errorf "backup is still running") "stop retry")).
Proof.
  intros HI. destruct initSpec as [src]. simpl. repeat split.
  - intros ->. unfold run.
    erewrite ensureCluster_validate_fails by (apply validate_no_source; exact HI).
    reflexivity.
  - intros source err -> HG. unfold run.
    erewrite ensureCluster_validate_fails by (eapply validate_fetch_fails; eauto).
    reflexivity.
  - intros source backup -> HG HP. unfold run.
    erewrite ensureCluster_validate_fails by (eapply validate_not_succeeded; eauto).
    reflexivity.
Qed.

(** C6, as the code has it: for a spec that asks for initialization and whose
    backup record has reached the succeeded phase, validate succeeds and hands
    to the spec's own Validate a cluster whose image is the backup's when the
    spec names none and the spec's own otherwise, whose master count is the
    backup's, and whose replica count is zero while the restore counter is not
    positive and the backup's otherwise; nothing else is assigned. *)
Theorem validate_restores_from_backup (s : State) source backup :
  Init (Spec (st_cluster s)) = Some {| BackupSource := Some source |} ->
  GetRedisClusterBackup (crController r) (st_trace s)
    (BackupSourceSpec.Namespace source) (BackupSourceSpec.Name source) = inr backup ->
  RedisClusterBackupStatus.Phase (RedisClusterBackup.Status backup) = BackupPhaseSucceeded ->
  let c := st_cluster s in
  let b := RedisClusterBackup.Status backup in
  let restored := restoredFrom b c in
  run (validate r) s = Ok tt /\
  st_cluster (exec (validate r) s) = Validate (helpers r) restored /\
  Image (Spec restored) =
    (if String.eqb (Image (Spec c)) "" then RedisClusterBackupStatus.ClusterImage b
     else Image (Spec c)) /\
  MasterSize (Spec restored) = RedisClusterBackupStatus.MasterSize b /\
  ClusterReplicas (Spec restored) =
    (if RestoreSucceeded (Status c) <=? 0 then 0
     else RedisClusterBackupStatus.ClusterReplicas b) /\
  Init (Spec restored) = Init (Spec c) /\
  Name restored = Name c /\ Namespace restored = Namespace c /\
  Status restored = Status c.
Proof.
  intros HI HG HP. unfold run, exec.
  rewrite (validate_succeeded r s source backup HI HG HP). simpl.
  repeat split; reflexivity.
Qed.

End EnsureClusterValidation.

Import Scenario.

(** C5 fails as stated: a backup that is still running, and a backup record
    that is not found, are both classified StopRetry, the kind that is not
    retried. *)
Lemma validation_not_retryable :
  run (ensureCluster (reconciler helpers0 (fetchOk (BackupPhaseOther "Running")) stsFound false)
         context0) (start (cluster fromBackup 0 1))
  = Fail (Wrap StopRetry (Errorf "backup is still running") "stop retry") /\
  run (ensureCluster
         (reconciler helpers0 (fetchFails (ApiError false "redisclusterbackups not found"))
            stsFound false)
         context0) (start (cluster fromBackup 0 1))
  = Fail (Wrap StopRetry (ApiError false "redisclusterbackups not found") "stop retry").
Proof. split; reflexivity. Qed.

(** The three cases, on a spec with no source, on a backup controller that is
    unavailable, and on a backup that is still running. *)
Lemma ensureCluster_classifies_validation_witness :
  run (ensureCluster (reconciler helpers0 (fetchOk BackupPhaseSucceeded) stsFound false)
         context0) (start (cluster noSource 0 1))
  = Fail (Wrap StopRetry (Errorf "backupSource is required") "stop retry") /\
  run (ensureCluster
         (reconciler helpers0 (fetchFails (ApiError true "the server is unavailable"))
            stsFound false)
         context0) (start (cluster fromBackup 0 1))
  = Fail (Wrap Kubernetes (ApiError true "the server is unavailable") "Validate") /\
  run (ensureCluster (reconciler helpers0 (fetchOk (BackupPhaseOther "Running")) stsFound false)
         context0) (start (cluster fromBackup 0 1))
  = Fail (Wrap StopRetry (Errorf "backup is still running") "stop retry").
Proof.
  split; [|split].
  - destruct (ensureCluster_classifies_validation
                (reconciler helpers0 (fetchOk BackupPhaseSucceeded) stsFound false) context0
                (start (cluster noSource 0 1)) {| BackupSource := None |} eq_refl)
      as (H & _ & _).
    apply H. reflexivity.
  - destruct (ensureCluster_classifies_validation
                (reconciler helpers0 (fetchFails (ApiError true "the server is unavailable"))
                   stsFound false) context0
                (start (cluster fromBackup 0 1))
                {| BackupSource := Some (BackupSourceSpec.mk "ns" "b") |} eq_refl)
      as (_ & H & _).
    exact (H (BackupSourceSpec.mk "ns" "b") (ApiError true "the server is unavailable")
             eq_refl eq_refl).
  - destruct (ensureCluster_classifies_validation
                (reconciler helpers0 (fetchOk (BackupPhaseOther "Running")) stsFound false)
                context0 (start (cluster fromBackup 0 1))
                {| BackupSource := Some (BackupSourceSpec.mk "ns" "b") |} eq_refl)
      as (_ & _ & H).
    apply (H (BackupSourceSpec.mk "ns" "b") (backup (BackupPhaseOther "Running")));
      [reflexivity | reflexivity | discriminate].
Defined.

(** C6 fails as stated: an image named by the spec is kept, whatever image
    the backup records. *)
Lemma validate_keeps_named_image :
  let s := start (cluster fromBackup 0 1) in
  let after := exec (validate (reconciler helpers0 (fetchOk BackupPhaseSucceeded) stsFound false)) s in
  Image (Spec (st_cluster after)) = "redis:5" /\
  RedisClusterBackupStatus.ClusterImage
    (RedisClusterBackup.Status (backup BackupPhaseSucceeded)) = "redis:4" /\
  Image (Spec (st_cluster after)) <>
  RedisClusterBackupStatus.ClusterImage
    (RedisClusterBackup.Status (backup BackupPhaseSucceeded)).
Proof. repeat split; try reflexivity. simpl. discriminate. Qed.

(** A restore that has not succeeded yet: five masters, no replica, and the
    image of the spec. *)
Lemma validate_restores_from_backup_witness :
  let r := reconciler helpers0 (fetchOk BackupPhaseSucceeded) stsFound false in
  let s := start (cluster fromBackup 0 1) in
  run (validate r) s = Ok tt /\
  Spec (st_cluster (exec (validate r) s)) =
  {| Image := "redis:5"; MasterSize := 5; ClusterReplicas := 0; Init := fromBackup |}.
Proof.
  intros r s.
  destruct (validate_restores_from_backup r s (BackupSourceSpec.mk "ns" "b")
              (backup BackupPhaseSucceeded) eq_refl eq_refl eq_refl)
    as (Hrun & Hc & _).
  split; [exact Hrun | rewrite Hc; reflexivity].
Defined.

(** ** waitForClusterJoin *)

Lemma rangeFirst_lookup {V} (start : nat) (m : gmap string V) key v :
  rangeFirst start m = Some (key, v) -> m !! key = Some v.
Proof.
  unfold rangeFirst. intros H. apply nth_error_In in H.
  apply list_elem_of_In in H. apply elem_of_map_to_list in H. exact H.
Qed.

Lemma rangeFirst_empty {V} (start : nat) : rangeFirst start (empty : gmap string V) = None.
Proof.
  unfold rangeFirst. rewrite map_to_list_empty.
  destruct (start mod _)%nat; reflexivity.
Qed.

Section WaitForClusterJoin.

Variable r : ReconcileDistributedRedisCluster.
Variable ctx : syncContext.

(** C8, as the code has it: when the topology query succeeds,
    waitForClusterJoin returns nil and does nothing but log; otherwise a
    context whose snapshot is nil faults before anything else is called, and
    with a node taken from the snapshot it issues one membership-join request
    against that node, and when the request fails returns a Redis-classified
    error at once, without sleeping or querying again; when it succeeds,
    sleeps one second, queries the topology once more, and returns a
    Requeue-classified error if that query fails and nil if it succeeds. *)
Theorem waitForClusterJoin_steps (s : State) :
  let tr := st_trace s in
  let join := waitForClusterJoin r ctx in
  match GetClusterInfos (admin ctx) tr with
  | inr _ =>
    run join s = Ok tt /\
    adds join s [EvGetClusterInfos true; EvLog "debug waitForClusterJoin"]
  | inl _ =>
    match clusterInfos ctx with
    | None =>
      run join s = Panic "nil pointer dereference" /\ adds join s [EvGetClusterInfos false]
    | Some infos =>
      forall key nodeInfo node,
        rangeFirst (rangeStart (helpers r) (tr ++ [EvGetClusterInfos false]))
          (Infos infos) = Some (key, nodeInfo) ->
        NodeInfos_Node nodeInfo = Some node ->
        Infos infos !! key = Some nodeInfo /\
        let addr := IPPort (helpers r) node in
        let meet := [EvGetClusterInfos false; EvLog meetLog; EvAttachNodeToCluster addr] in
        match AttachNodeToCluster (admin ctx)
                (tr ++ [EvGetClusterInfos false; EvLog meetLog]) addr with
        | Some err =>
          run join s = Fail (Wrap Redis err "AttachNodeToCluster") /\ adds join s meet
        | None =>
          match GetClusterInfos (admin ctx) (tr ++ meet ++ [EvSleep (1 * Second)]) with
          | inl err =>
            run join s = Fail (Wrap Requeue err "wait for cluster join") /\
            adds join s (meet ++ [EvSleep (1 * Second); EvGetClusterInfos false])
          | inr _ =>
            run join s = Ok tt /\
            adds join s (meet ++ [EvSleep (1 * Second); EvGetClusterInfos true])
          end
        end
    end
  end.
Proof.
  intros tr join. subst tr join.
  destruct (GetClusterInfos (admin ctx) (st_trace s)) as [err|infos] eqn:HQ.
  - destruct (clusterInfos ctx) as [snapshot|] eqn:HS.
    + intros key nodeInfo node HF HN. split; [eapply rangeFirst_lookup; eauto|].
      cbv zeta. unfold waitForClusterJoin. unfold_tick. rewrite HQ. simpl.
      rewrite HS. simpl. rewrite HF, HN. simpl. rewrite <- !app_assoc. simpl.
      repeat (case_match; simpl; rewrite <- ?app_assoc; simpl);
        try discriminate; simplify_eq; split; reflexivity.
    + unfold waitForClusterJoin. unfold_tick. rewrite HQ. simpl. rewrite HS. simpl.
      split; reflexivity.
  - unfold waitForClusterJoin. unfold_tick. rewrite HQ. simpl.
    rewrite <- !app_assoc. split; reflexivity.
Qed.

(** C10: when the topology query fails and the node map of the snapshot is
    empty, the node selected for the join request is nil and
    waitForClusterJoin faults on its address, after the log line and before
    any join request; it returns no error, classified or not. *)
Theorem waitForClusterJoin_empty_snapshot_faults (s : State) (err : error)
    (infos : ClusterInfos) :
  GetClusterInfos (admin ctx) (st_trace s) = inl err ->
  clusterInfos ctx = Some infos ->
  Infos infos = empty ->
  run (waitForClusterJoin r ctx) s = Panic "nil pointer dereference" /\
  adds (waitForClusterJoin r ctx) s [EvGetClusterInfos false; EvLog meetLog] /\
  (forall e, run (waitForClusterJoin r ctx) s <> Fail e).
Proof.
  intros HQ HS HE.
  assert (H : waitForClusterJoin r ctx s =
              (Panic "nil pointer dereference",
               mkState (st_cluster s)
                 (st_trace s ++ [EvGetClusterInfos false; EvLog meetLog]))).
  { unfold waitForClusterJoin. unfold_tick. rewrite HQ. simpl. rewrite HS. simpl.
    rewrite HE, rangeFirst_empty. simpl. rewrite <- !app_assoc. reflexivity. }
  unfold run, adds, exec. rewrite H. simpl. repeat split. discriminate.
Qed.


End WaitForClusterJoin.

Import JoinScenario.

(** C8 fails as stated: when the join request is refused, waitForClusterJoin
    returns a Redis-classified error, and neither sleeps nor queries the
    topology again. *)
Lemma refused_join_is_not_requeued :
  let join := waitForClusterJoin (reconciler helpers0 (fetchOk BackupPhaseSucceeded) stsFound false)
                (context snapshot (adminOf queryFails (Some refused) None)) in
  let s := start (cluster None 0 1) in
  run join s = Fail (Wrap Redis refused "AttachNodeToCluster") /\
  newEvents join s =
    [EvGetClusterInfos false; EvLog meetLog; EvAttachNodeToCluster "10.0.0.1:6379"] /\
  ~ In (EvSleep (1 * Second)) (newEvents join s).
Proof.
  cbv zeta. split; [reflexivity|]. split; [vm_compute; reflexivity|].
  vm_compute. intros [H|[H|[H|[]]]]; discriminate.
Qed.

(** A join that succeeds: one request, one second, one more query. *)
Lemma waitForClusterJoin_steps_witness :
  let join := waitForClusterJoin (reconciler helpers0 (fetchOk BackupPhaseSucceeded) stsFound false)
                (context snapshot (adminOf queryAfterMeet None None)) in
  let s := start (cluster None 0 1) in
  run join s = Ok tt /\
  adds join s [EvGetClusterInfos false; EvLog meetLog;
               EvAttachNodeToCluster "10.0.0.1:6379";
               EvSleep (1 * Second); EvGetClusterInfos true].
Proof.
  cbv zeta.
  exact (proj2 (waitForClusterJoin_steps
                  (reconciler helpers0 (fetchOk BackupPhaseSucceeded) stsFound false)
                  (context snapshot (adminOf queryAfterMeet None None))
                  (start (cluster None 0 1))
                  "10.0.0.1:6379" {| NodeInfos_Node := Some replica |} replica
                  eq_refl eq_refl)).
Defined.

(** The fault, on a snapshot with no node. *)
Lemma waitForClusterJoin_empty_snapshot_faults_witness :
  run (waitForClusterJoin (reconciler helpers0 (fetchOk BackupPhaseSucceeded) stsFound false)
         context0) (start (cluster None 0 1))
  = Panic "nil pointer dereference".
Proof.
  exact (proj1 (waitForClusterJoin_empty_snapshot_faults
                  (reconciler helpers0 (fetchOk BackupPhaseSucceeded) stsFound false)
                  context0 (start (cluster None 0 1)) (Errorf "connection refused")
                  {| Infos := empty |} eq_refl eq_refl eq_refl)).
Defined.

(** ** ensureCluster: the wait for the stateful sets *)

Lemma waitTimeout_exact (replicas : Z) :
  0 <= replicas <= 307445732 ->
  Duration_mul (30 * Second) (int32_add replicas 2) = 30 * Second * (replicas + 2).
Proof.
  intros H. unfold Duration_mul, int32_add, Second.
  rewrite (wrap_small 32) by (simpl; lia).
  rewrite (wrap_small 64) by (simpl; lia). reflexivity.
Qed.

Lemma newEvents_elim {A} (m : M A) (s : State) (P : Trace -> Prop) :
  (exists evs, st_trace (exec m s) = st_trace s ++ evs /\ P evs) -> P (newEvents m s).
Proof. intros (evs & H & HP). rewrite (newEvents_app m s evs H). exact HP. Qed.

(** Case analysis on what the collaborators answer, then the trace added. *)
Ltac trace_cases :=
  repeat (case_match; simpl in *; simplify_eq);
  (eexists; split;
   [ rewrite <- ?app_assoc; simpl; first [reflexivity | symmetry; apply app_nil_r] | ]).

Ltac in_trace :=
  repeat match goal with
         | H : In _ _ |- _ => simpl in H
         | H : _ \/ _ |- _ => destruct H
         | H : False |- _ => destruct H
         | H : _ = _ |- _ => discriminate H
         | H : _ = _ |- _ => progress simplify_eq
         end.

Section EnsureClusterWait.

Variable r : ReconcileDistributedRedisCluster.
Variable ctx : syncContext.

(** C9: in ensureCluster the wait for the stateful sets runs if and only if
    the ensure step of the stateful sets reports an update (and no error); the
    waiter is then "waitStatefulSetUpdating" with a tick of 5 seconds and a
    timeout of 30 seconds times (replica count + 2), computed on the replica
    count of the validated spec as Go computes it, which is the exact product
    as long as it fits a Duration. *)
Theorem ensureCluster_waits_iff_updated (s : State) :
  let evs := newEvents (ensureCluster r ctx) s in
  let replicas := ClusterReplicas (Spec (st_cluster (exec (ensureCluster r ctx) s))) in
  ((exists w, In (EvWaiting w) evs) <-> In (EvEnsureRedisStatefulsets true None) evs) /\
  (forall w, In (EvWaiting w) evs ->
     w = waitStatefulSetUpdating "waitStatefulSetUpdating"
           (Duration_mul (30 * Second) (int32_add replicas 2)) (5 * Second)) /\
  (0 <= replicas <= 307445732 ->
   Duration_mul (30 * Second) (int32_add replicas 2) = 30 * Second * (replicas + 2)).
Proof.
  intros evs replicas. subst evs replicas.
  pattern (newEvents (ensureCluster r ctx) s). apply newEvents_elim.
  pose proof (validate_cases r s) as HV.
  unfold ensureCluster, waiting, fetched, waitTimeout in *. unfold_tick.
  destruct (validate r s) as [res s1]; inversion HV; subst res s1; clear HV;
    simpl in *; trace_cases;
    (split; [split; [intros [w Hw]; in_trace; simpl; auto 12
                    | intros Hw; in_trace; eexists; simpl; eauto 12]
            | split; [intros w Hw; in_trace; reflexivity | apply waitTimeout_exact]]).
Qed.

End EnsureClusterWait.

(** With one replica per master the wait is of 90 seconds. *)
Lemma ensureCluster_waits_iff_updated_witness :
  let r := reconciler helpers0 (fetchOk BackupPhaseSucceeded) stsFound true in
  let s := start (cluster None 0 1) in
  In (EvWaiting (waitStatefulSetUpdating "waitStatefulSetUpdating" 90000000000 5000000000))
     (newEvents (ensureCluster r context0) s) /\
  Duration_mul (30 * Second) (int32_add 1 2) = 30 * Second * (1 + 2).
Proof.
  intros r s.
  destruct (ensureCluster_waits_iff_updated r context0 s) as (_ & _ & H).
  split; [vm_compute; auto | apply H; vm_compute; split; discriminate].
Defined.

(** ** scalingDown: the two passes *)




Lemma forRange_emit {A} (l : list A) (f : A -> Event) (s : State) :
  forRange l (fun x => emit (f x)) s =
  (Ok tt, mkState (st_cluster s) (st_trace s ++ map f l)).
Proof.
  revert s. induction l as [|x l IH]; intros s; simpl.
  - unfold ret. rewrite app_nil_r, state_eta. reflexivity.
  - unfold bind, emit. rewrite IH. simpl. rewrite <- app_assoc. reflexivity.
Qed.

Lemma deletedSets_app (evs1 evs2 : Trace) :
  deletedSets (evs1 ++ evs2) = deletedSets evs1 ++ deletedSets evs2.
Proof. unfold deletedSets. apply omap_app. Qed.

Lemma deletedSets_forget (nodes : Nodes) (evs : Trace) :
  Forall (forgetEvent nodes) evs -> deletedSets evs = [].
Proof.
  induction 1 as [|ev evs Hev _ IH]; [reflexivity|].
  change (ev :: evs) with ([ev] ++ evs). rewrite deletedSets_app, IH. destruct Hev as [->|(n & _ & _ & ->)]; reflexivity.
Qed.

Lemma removals_only (h : Helpers) (c : DistributedRedisCluster)
    (nodes : gmap string Nodes) (ords : list Z) :
  Forall (fun ev => isConnectionsRemove ev = true) (removals h c nodes ords).
Proof.
  apply List.Forall_forall. intros ev H. unfold removals in H.
  apply in_flat_map in H as (i & _ & H). apply in_map_iff in H as (node & <- & _).
  reflexivity.
Qed.


Section ScalingDown.

Variable r : ReconcileDistributedRedisCluster.
Variable ctx : syncContext.
Variable cluster : DistributedRedisCluster.
Variable statefulSetNodes : gmap string Nodes.

Local Abbreviation h := (helpers r).
Local Abbreviation lookup := (GetStatefulSet (statefulSetController r)).
Local Abbreviation stsName := (ClusterStatefulSetName (helpers r) (Name cluster)).

Lemma removeConnections_all (ords : list Z) (s : State) :
  forRange ords (removeConnections r cluster statefulSetNodes) s =
  (Ok tt, mkState (st_cluster s) (st_trace s ++ removals h cluster statefulSetNodes ords)).
Proof.
  revert s. induction ords as [|i ords IH]; intros s; simpl.
  - unfold ret. rewrite app_nil_r, state_eta. reflexivity.
  - unfold bind, removeConnections. rewrite forRange_emit, IH. simpl.
    rewrite <- app_assoc. reflexivity.
Qed.

Lemma forgetNode_step (node : Node) (s : State) :
  forgetNode r ctx node s =
  let logged := st_trace s ++ [EvLog "forgetNode"] in
  match Slots node with
  | _ :: _ =>
    (Fail (New Redis ("node " +:+ Node_String h node +:+
                      " is not empty! Reshard data away and try again")),
     mkState (st_cluster s) logged)
  | [] =>
    (match ForgetNode (admin ctx) logged (ID node) with
     | Some err => Fail (Wrap Redis err "ForgetNode")
     | None => Ok tt
     end,
     mkState (st_cluster s) (logged ++ [EvForgetNode (ID node)]))
  end.
Proof.
  unfold forgetNode. unfold_tick. simpl.
  destruct (Slots node); simpl; [|reflexivity].
  destruct (ForgetNode _ _ _); reflexivity.
Qed.

Lemma forRange_cons {A} (x : A) (l : list A) (body : A -> M unit) (s : State) :
  forRange (x :: l) body s =
  match body x s with
  | (Ok _, s') => forRange l body s'
  | (Fail err, s') => (Fail err, s')
  | (Panic msg, s') => (Panic msg, s')
  end.
Proof. reflexivity. Qed.

Lemma forgetNode_loop (nodes : Nodes) (s : State) :
  exists evs,
    adds (forRange nodes (forgetNode r ctx)) s evs /\
    Forall (forgetEvent nodes) evs /\
    match run (forRange nodes (forgetNode r ctx)) s with
    | Ok _ => Forall (fun node => Slots node = []) nodes
    | Fail err => GetType err = Some Redis
    | Panic _ => False
    end.
Proof.
  revert s. induction nodes as [|node nodes IH]; intros s.
  - exists []. unfold adds, run, exec. simpl. unfold ret. simpl.
    rewrite app_nil_r, state_eta. auto.
  - assert (Hweak : forall evs, Forall (forgetEvent nodes) evs ->
                                Forall (forgetEvent (node :: nodes)) evs).
    { intros evs HF. eapply Forall_impl; [exact HF|]. intros ev [->|(n & Hn & Hs & ->)].
      - left; reflexivity.
      - right. exists n. simpl. auto. }
    unfold adds, run, exec in *. rewrite forRange_cons, forgetNode_step. cbv zeta.
    destruct (Slots node) as [|slot slots] eqn:Hslots; simpl.
    + destruct (ForgetNode (admin ctx) _ (ID node)) as [err|] eqn:HF; simpl.
      * eexists. rewrite <- app_assoc. simpl. split; [reflexivity|]. split; [|reflexivity].
        constructor; [left; reflexivity|]. constructor; [|constructor].
        right. exists node. simpl. auto.
      * match goal with |- context [forRange nodes _ ?s1] =>
          destruct (IH s1) as (evs & Hadd & Hall & Hres) end.
        simpl in Hadd. rewrite <- !app_assoc in *. simpl in *.
        eexists. split; [exact Hadd|]. split.
        -- constructor; [left; reflexivity|]. constructor.
           ++ right. exists node. simpl. auto.
           ++ apply Hweak, Hall.
        -- destruct (forRange nodes _ _) as [[| |] ?]; simpl in *; auto.
    + eexists. split; [reflexivity|]. split; [|reflexivity].
      constructor; [left; reflexivity|constructor].
Qed.

Lemma forgetEvent_retire (i : Z) (ev : Event) :
  forgetEvent (groupNodes h cluster statefulSetNodes i) ev ->
  retireEvent h cluster statefulSetNodes lookup i ev.
Proof.
  intros [->|(n & Hn & Hs & ->)]; unfold retireEvent; simpl;
    (split; [reflexivity|]); (split; [reflexivity|]);
    (split; [|split; [discriminate|intros ns name ok Hev; discriminate Hev]]).
  - intros id Hid. discriminate Hid.
  - intros id [= <-]. eauto.
Qed.

Lemma forgetEvent_not_deletion (nodes : Nodes) (evs : Trace) :
  Forall (forgetEvent nodes) evs -> Forall (fun ev => isDeletion ev = false) evs.
Proof.
  intros H. eapply Forall_impl; [exact H|].
  intros ev [->|(n & _ & _ & ->)]; reflexivity.
Qed.

Ltac retire_event :=
  unfold retireEvent, deletionFor; simpl;
  repeat split; try reflexivity; try discriminate; intros; try discriminate;
  try congruence; eauto 10.

Ltac retire_events :=
  repeat first [ apply Forall_nil_2
               | apply Forall_cons_2; [retire_event|]
               | apply Forall_app_2;
                 [eapply Forall_impl; [eassumption | apply forgetEvent_retire]|]
               | solve [eapply Forall_impl; [eassumption | apply forgetEvent_retire]] ].

Lemma retireGroup_spec (i : Z) (s : State) :
  exists evs,
    adds (retireGroup r ctx cluster statefulSetNodes i) s evs /\
    Forall (retireEvent h cluster statefulSetNodes lookup i) evs /\
    match run (retireGroup r ctx cluster statefulSetNodes i) s with
    | Ok _ => emptyGroup h cluster statefulSetNodes i /\ deletedSets evs = [stsName i]
    | Fail err =>
      deletedSets evs = [] /\
      Forall (fun ev => isDeletion ev = false) evs /\
      (GetType err = Some Redis \/
       (GetType err = Some Kubernetes /\
        In (EvGetStatefulSet (Namespace cluster) (stsName i) false) evs))
    | Panic _ => False
    end.
Proof.
  unfold retireGroup, waiting. unfold_tick. simpl.
  destruct (GetStatefulSet _ _ _ _) as [err|sts] eqn:HG; simpl.
  - eexists. rewrite <- !app_assoc. simpl. split; [reflexivity|].
    split; [retire_events|]. simpl. split; [reflexivity|].
    split; [repeat constructor|]. auto 6.
  - match goal with |- context [forRange ?l _ ?s1] =>
      destruct (forgetNode_loop l s1) as (evsF & Hadd & Hall & Hres) end.
    unfold adds, run, exec in Hadd, Hres.
    fold (groupNodes h cluster statefulSetNodes i) in *.
    destruct (forRange _ _ _) as [[[]|err|msg] s2]; simpl in Hadd, Hres; subst s2; simpl;
      [|rewrite <- ?app_assoc; simpl; eexists|destruct Hres].
    + repeat (case_match; simpl in *; simplify_eq);
        (simpl; rewrite <- ?app_assoc; simpl; eexists; split; [reflexivity|]);
        (split; [retire_events|]);
        (split; [exact Hres|]);
        match goal with |- deletedSets (?a :: ?b :: ?l) = _ =>
          change (a :: b :: l) with ([a; b] ++ l) end;
        rewrite !deletedSets_app, (deletedSets_forget _ _ Hall); reflexivity.
    + split; [reflexivity|]. split; [retire_events|].
      split; [|split; [|auto]].
      * match goal with |- deletedSets (?a :: ?b :: ?l) = _ =>
          change (a :: b :: l) with ([a; b] ++ l) end.
        rewrite deletedSets_app, (deletedSets_forget _ _ Hall). reflexivity.
      * constructor; [reflexivity|]. constructor; [reflexivity|].
        eapply forgetEvent_not_deletion, Hall.
Qed.

Lemma retireGroup_loop (ords : list Z) (s : State) :
  exists evs k,
    adds (forRange ords (retireGroup r ctx cluster statefulSetNodes)) s evs /\
    Forall (fun ev => exists i, In i ords /\
                                retireEvent h cluster statefulSetNodes lookup i ev) evs /\
    deletedSets evs = map stsName (take k ords) /\
    match run (forRange ords (retireGroup r ctx cluster statefulSetNodes)) s with
    | Ok _ => k = length ords /\ Forall (emptyGroup h cluster statefulSetNodes) ords
    | Fail err =>
      (k < length ords)%nat /\
      (GetType err = Some Redis \/
       (GetType err = Some Kubernetes /\
        exists name, In (EvGetStatefulSet (Namespace cluster) name false) evs))
    | Panic _ => False
    end.
Proof.
  revert s. induction ords as [|i ords IH]; intros s.
  - exists [], 0%nat. unfold adds, run, exec. simpl. unfold ret. simpl.
    rewrite app_nil_r, state_eta. auto.
  - destruct (retireGroup_spec i s) as (evs1 & Hadd1 & Hall1 & Hres1).
    assert (Hhere : Forall (fun ev => exists j, In j (i :: ords) /\
                                      retireEvent h cluster statefulSetNodes lookup j ev) evs1).
    { eapply Forall_impl; [exact Hall1|]. intros ev Hev. exists i. simpl. auto. }
    unfold adds, run, exec in *. rewrite forRange_cons.
    destruct (retireGroup r ctx cluster statefulSetNodes i s) as [[[]|err|msg] s1];
      simpl in Hadd1, Hres1; subst s1.
    + destruct Hres1 as [Hempty Hdel].
      match goal with |- context [forRange ords _ ?s1] =>
        destruct (IH s1) as (evs2 & k & Hadd2 & Hall2 & Hdel2 & Hres2) end.
      simpl in Hadd2. rewrite <- app_assoc in Hadd2.
      exists (evs1 ++ evs2), (S k). split; [exact Hadd2|]. split; [|split].
      * apply Forall_app_2; [exact Hhere|].
        eapply Forall_impl; [exact Hall2|]. intros ev (j & Hj & Hev). exists j. simpl. auto.
      * rewrite deletedSets_app, Hdel, Hdel2. reflexivity.
      * destruct (forRange ords _ _) as [[[]|err|msg] s2]; simpl in *.
        -- destruct Hres2 as [-> Hrest]. split; [reflexivity|]. constructor; assumption.
        -- destruct Hres2 as [Hk Hkind]. split; [lia|].
           destruct Hkind as [Hk1|(Hk1 & name & Hin)]; [left; exact Hk1|].
           right. split; [exact Hk1|]. exists name. apply in_or_app. right. exact Hin.
        -- exact Hres2.
    + destruct Hres1 as (Hdel & _ & Hkind). exists evs1, 0%nat. simpl.
      split; [reflexivity|]. split; [exact Hhere|]. split; [exact Hdel|].
      split; [lia|]. destruct Hkind as [Hk1|(Hk1 & Hin)]; [left; exact Hk1|].
      right. split; [exact Hk1|]. eexists. exact Hin.
    + destruct Hres1.
Qed.


End ScalingDown.

Section RetirementSucceeds.

Variable r : ReconcileDistributedRedisCluster.
Variable ctx : syncContext.
Variable cluster : DistributedRedisCluster.
Variable statefulSetNodes : gmap string Nodes.

Local Abbreviation h := (helpers r).

(** With stateful sets that are found, forget requests that succeed and
    groups that hold no slot, the second pass returns nil, whatever the
    deletions and the waits answer. *)
Hypothesis lookups_succeed :
  forall tr ns name, isOk (GetStatefulSet (statefulSetController r) tr ns name) = true.
Hypothesis forgets_succeed : forall tr id, ForgetNode (admin ctx) tr id = None.

Lemma forgetNode_loop_succeeds (nodes : Nodes) (s : State) :
  Forall (fun node => Slots node = []) nodes ->
  run (forRange nodes (forgetNode r ctx)) s = Ok tt.
Proof.
  intros Hempty. revert s. induction Hempty as [|node nodes Hnode _ IH]; intros s.
  - reflexivity.
  - unfold run in *. rewrite forRange_cons, forgetNode_step. cbv zeta.
    rewrite Hnode, forgets_succeed. apply IH.
Qed.

Lemma retireGroup_succeeds (i : Z) (s : State) :
  emptyGroup h cluster statefulSetNodes i ->
  run (retireGroup r ctx cluster statefulSetNodes i) s = Ok tt.
Proof.
  intros Hempty. unfold retireGroup, waiting. unfold_tick. simpl.
  match goal with |- context [GetStatefulSet ?c ?tr ?ns ?name] =>
    pose proof (lookups_succeed tr ns name) as Hlook;
    destruct (GetStatefulSet c tr ns name) as [err|sts]; [discriminate|] end.
  simpl.
  match goal with |- context [forRange ?l _ ?s1] =>
    pose proof (forgetNode_loop_succeeds l s1 Hempty) as Hforget;
    unfold run in Hforget;
    destruct (forRange l (forgetNode r ctx) s1) as [res s2] end.
  simpl in Hforget. subst res. simpl.
  repeat (case_match; simpl in *; simplify_eq); reflexivity.
Qed.

Lemma retireGroup_loop_succeeds (ords : list Z) (s : State) :
  Forall (emptyGroup h cluster statefulSetNodes) ords ->
  run (forRange ords (retireGroup r ctx cluster statefulSetNodes)) s = Ok tt.
Proof.
  intros Hempty. revert s. induction Hempty as [|i ords Hi _ IH]; intros s.
  - reflexivity.
  - pose proof (retireGroup_succeeds i s Hi) as Hrun.
    unfold run in *. rewrite forRange_cons.
    destruct (retireGroup r ctx cluster statefulSetNodes i s) as [res s1].
    simpl in Hrun. subst res. apply IH.
Qed.

End RetirementSucceeds.

(** What [scalingDown] does: the removals of the first pass, then the events
    of the second pass, which retires the groups of a prefix of the ordinals,
    all of them when it returns nil. *)
Lemma scalingDown_spec (r : ReconcileDistributedRedisCluster) (ctx : syncContext)
    (currentMasterNum : Z) (statefulSetNodes : gmap string Nodes) (s : State) :
  let c := st_cluster s in
  let ords := countdown (int_sub currentMasterNum 1) (MasterSize (Spec c)) in
  exists pass2 k,
    adds (scalingDown r ctx currentMasterNum statefulSetNodes) s
      (removals (helpers r) c statefulSetNodes ords ++ pass2) /\
    Forall (fun ev => exists i, In i ords /\
                                retireEvent (helpers r) c statefulSetNodes
                                  (GetStatefulSet (statefulSetController r)) i ev) pass2 /\
    deletedSets pass2 = map (ClusterStatefulSetName (helpers r) (Name c)) (take k ords) /\
    match run (scalingDown r ctx currentMasterNum statefulSetNodes) s with
    | Ok _ => k = length ords /\ Forall (emptyGroup (helpers r) c statefulSetNodes) ords
    | Fail err =>
      (k < length ords)%nat /\
      (GetType err = Some Redis \/
       (GetType err = Some Kubernetes /\
        exists name, In (EvGetStatefulSet (Namespace c) name false) pass2))
    | Panic _ => False
    end.
Proof.
  intros c ords. unfold scalingDown, adds, run, exec, bind, getCluster. fold c. fold ords.
  rewrite removeConnections_all.
  match goal with |- context [forRange ords _ ?s1] =>
    destruct (retireGroup_loop r ctx c statefulSetNodes ords s1)
      as (pass2 & k & Hadd & Hall & Hdel & Hres) end.
  unfold adds, run, exec in Hadd, Hres. simpl in Hadd. rewrite <- app_assoc in Hadd.
  exists pass2, k. repeat split; assumption.
Qed.



Section ScalingDownClaims.

Variable r : ReconcileDistributedRedisCluster.
Variable ctx : syncContext.
Variable currentMasterNum : Z.
Variable statefulSetNodes : gmap string Nodes.

Local Abbreviation h := (helpers r).
Local Abbreviation lookup := (GetStatefulSet (statefulSetController r)).



End ScalingDownClaims.

Import ScaleDownScenario.





(** ** syncCluster: the branches *)

Lemma branchesRun_app (evs1 evs2 : Trace) :
  branchesRun (evs1 ++ evs2) = branchesRun evs1 ++ branchesRun evs2.
Proof. unfold branchesRun. apply omap_app. Qed.

Lemma branchesRun_none (evs : Trace) :
  Forall (fun ev => branchOfEvent ev = None) evs -> branchesRun evs = [].
Proof.
  induction 1 as [|ev evs Hev _ IH]; [reflexivity|].
  unfold branchesRun in *. simpl. rewrite Hev. exact IH.
Qed.

Lemma scalingDown_announces_nothing (r : ReconcileDistributedRedisCluster)
    (ctx : syncContext) (currentMasterNum : Z) (statefulSetNodes : gmap string Nodes)
    (s : State) :
  exists evs,
    adds (scalingDown r ctx currentMasterNum statefulSetNodes) s evs /\
    branchesRun evs = [] /\
    (forall msg, run (scalingDown r ctx currentMasterNum statefulSetNodes) s <> Panic msg).
Proof.
  destruct (scalingDown_spec r ctx currentMasterNum statefulSetNodes s)
    as (pass2 & k & Hadd & Hall & _ & Hres).
  eexists. split; [exact Hadd|]. split.
  - rewrite branchesRun_app. rewrite (branchesRun_none pass2).
    + rewrite app_nil_r. apply branchesRun_none.
      eapply Forall_impl; [apply removals_only|].
      intros ev Hev. destruct ev; try discriminate. reflexivity.
    + eapply Forall_impl; [exact Hall|]. intros ev (i & _ & _ & H & _). exact H.
  - intros msg Hp. rewrite Hp in Hres. exact Hres.
Qed.

Section SyncCluster.

Variable r : ReconcileDistributedRedisCluster.
Variable ctx : syncContext.

Local Abbreviation h := (helpers r).

Lemma syncCluster_spec (s : State) :
  let c := st_cluster s in
  exists evs,
    adds (syncCluster r ctx) s evs /\
    branchesRun evs =
    match newRedisCluster h (clusterInfos ctx) c with
    | inl _ => []
    | inr clusterCtx =>
      match DispatchMasters clusterCtx (st_trace s) with
      | Some _ => []
      | None =>
        let tr := st_trace s ++ [EvDispatchMasters] in
        branchTaken (len (GetCurrentMasters clusterCtx tr)) (len (GetNewMasters clusterCtx tr))
          (MinReplicationFactor (Status c)) (ClusterReplicas (Spec c)) (MasterSize (Spec c))
      end
    end.
Proof.
  intros c. subst c. unfold syncCluster, branchTaken. unfold_tick. simpl.
  destruct (newRedisCluster h (clusterInfos ctx) (st_cluster s)) as [err|clusterCtx];
    [exists []; rewrite app_nil_r, state_eta; auto|].
  destruct (DispatchMasters clusterCtx (st_trace s)) as [err|]; simpl;
    [eexists; split; reflexivity|].
  destruct (len (GetCurrentMasters clusterCtx _) =? 0); simpl.
  { repeat (case_match; simpl in *; simplify_eq);
      (simpl; rewrite <- ?app_assoc; simpl; eexists; split; reflexivity). }
  destruct (len (GetCurrentMasters clusterCtx _) <? len (GetNewMasters clusterCtx _)); simpl.
  { repeat (case_match; simpl in *; simplify_eq);
      (simpl; rewrite <- ?app_assoc; simpl; eexists; split; reflexivity). }
  destruct (MinReplicationFactor _ <? ClusterReplicas _); simpl.
  { repeat (case_match; simpl in *; simplify_eq);
      (simpl; rewrite <- ?app_assoc; simpl; eexists; split; reflexivity). }
  destruct (MasterSize _ <? len _); simpl;
    [|eexists; rewrite <- ?app_assoc; simpl; split; reflexivity].
  destruct (DispatchSlotToNewMasters clusterCtx _ _ _ _) as [err|]; simpl;
    [eexists; rewrite <- ?app_assoc; simpl; split; reflexivity|].
  match goal with |- context [scalingDown r ctx ?n ?m ?s1] =>
    destruct (scalingDown_announces_nothing r ctx n m s1) as (evs & Hadd & Hnone & _);
    unfold adds, exec in Hadd;
    destruct (scalingDown r ctx n m s1) as [res s2] end.
  simpl in Hadd. subst s2.
  exists ([EvDispatchMasters; EvLog "masters"; EvLog "Scaling down";
           EvDispatchSlotToNewMasters] ++ evs).
  split.
  - destruct res; simpl; rewrite <- ?app_assoc; reflexivity.
  - rewrite branchesRun_app, Hnone. reflexivity.
Qed.

(** C2, as the code has it: after the plan is computed, syncCluster enters at
    most one of four branches, the first whose condition holds: bootstrap when
    there is no current master; scale-up when the new masters outnumber the
    current ones; scale-replicas when there is a current master, the new
    masters do not outnumber the current ones (they may be fewer) and the
    replication factor observed is below the one wanted; scale-down when none
    of these holds and the current masters outnumber the master count of the
    spec. When the plan cannot be computed no branch is entered. *)
Theorem syncCluster_branches (s : State) :
  let c := st_cluster s in
  let ran := branchesRun (newEvents (syncCluster r ctx) s) in
  match newRedisCluster h (clusterInfos ctx) c with
  | inl _ => ran = []
  | inr clusterCtx =>
    match DispatchMasters clusterCtx (st_trace s) with
    | Some _ => ran = []
    | None =>
      let tr := st_trace s ++ [EvDispatchMasters] in
      let cur := len (GetCurrentMasters clusterCtx tr) in
      let new := len (GetNewMasters clusterCtx tr) in
      let minFactor := MinReplicationFactor (Status c) in
      let replicas := ClusterReplicas (Spec c) in
      (length ran <= 1)%nat /\
      (In Bootstrap ran <-> cur = 0) /\
      (In ScaleUp ran <-> cur <> 0 /\ cur < new) /\
      (In ScaleReplicas ran <-> cur <> 0 /\ new <= cur /\ minFactor < replicas) /\
      (In ScaleDown ran <->
       cur <> 0 /\ new <= cur /\ replicas <= minFactor /\ MasterSize (Spec c) < cur)
    end
  end.
Proof.
  intros c ran. subst ran.
  destruct (syncCluster_spec s) as (evs & Hadd & Hran). fold c in Hran.
  rewrite (adds_newEvents _ _ _ Hadd), Hran. clear Hadd Hran.
  destruct (newRedisCluster h (clusterInfos ctx) c) as [err|clusterCtx]; [reflexivity|].
  destruct (DispatchMasters clusterCtx (st_trace s)) as [err|]; [reflexivity|].
  cbv zeta. unfold branchTaken.
  repeat case_match;
    repeat match goal with
           | H : (_ =? _) = true |- _ => apply Z.eqb_eq in H
           | H : (_ =? _) = false |- _ => apply Z.eqb_neq in H
           | H : (_ <? _) = true |- _ => apply Z.ltb_lt in H
           | H : (_ <? _) = false |- _ => apply Z.ltb_ge in H
           end;
    simpl; repeat split; intros; in_trace;
    repeat match goal with H : _ /\ _ |- _ => destruct H end;
    try lia; auto.
Qed.

End SyncCluster.

Import SyncScenario.

(** C2 fails as stated: with five current masters and a target of three, the
    scale-replicas branch runs as soon as the replication factor observed is
    below the one wanted. *)
Lemma scale_replicas_with_masters_to_retire :
  let s := start (cluster None 0 0) in
  let tr := st_trace s ++ [EvDispatchMasters] in
  branchesRun (newEvents (syncCluster (reconcilerWith (plan 5 3)) context0) s)
    = [ScaleReplicas] /\
  len (GetCurrentMasters (plan 5 3) tr) = 5 /\
  len (GetNewMasters (plan 5 3) tr) = 3 /\
  MasterSize (Spec (st_cluster s)) = 3.
Proof. cbv zeta. repeat split; vm_compute; reflexivity. Qed.

(** Five current masters for a target of three, all replicated as wanted:
    scale-down. *)
Lemma syncCluster_branches_witness :
  let s := start (cluster None 0 1) in
  In ScaleDown (branchesRun (newEvents (syncCluster (reconcilerWith (plan 5 3)) context0) s)).
Proof.
  intros s.
  pose proof (syncCluster_branches (reconcilerWith (plan 5 3)) context0 s) as H.
  simpl in H. destruct H as (_ & _ & _ & _ & H). apply H.
  vm_compute. repeat split; discriminate.
Defined.

(** ** What the handler assigns to the cluster *)

Section Frame.

Variable r : ReconcileDistributedRedisCluster.
Variable ctx : syncContext.

Local Abbreviation h := (helpers r).

Lemma waitPodReady_adds (s : State) : exists evs, adds (waitPodReady r ctx) s evs.
Proof.
  unfold waitPodReady. unfold_tick. simpl.
  repeat (case_match; simpl in *; simplify_eq);
    (simpl; rewrite <- ?app_assoc; simpl; eexists; reflexivity).
Qed.

Lemma waitForClusterJoin_adds (s : State) : exists evs, adds (waitForClusterJoin r ctx) s evs.
Proof.
  unfold waitForClusterJoin. unfold_tick. simpl.
  repeat (case_match; simpl in *; simplify_eq);
    (simpl; rewrite <- ?app_assoc; simpl; eexists; reflexivity).
Qed.

Lemma ensureCluster_cluster (s : State) :
  st_cluster (exec (ensureCluster r ctx) s) = st_cluster (exec (validate r) s).
Proof.
  unfold ensureCluster, waiting. unfold_tick.
  destruct (validate r s) as [[[]|err|msg] s1]; simpl;
    repeat (case_match; simpl in *; simplify_eq); reflexivity.
Qed.

Lemma validate_fails_cluster (s : State) :
  run (validate r) s <> Ok tt -> st_cluster (exec (validate r) s) = st_cluster s.
Proof.
  unfold run, exec. intros H.
  destruct (validate_cases r s); simpl in *; try reflexivity; congruence.
Qed.

(** C3, as the code has it: waitPodReady, waitForClusterJoin, syncCluster and
    scalingDown leave every field of the spec as it was; validate leaves the
    spec as it was when it returns an error, and otherwise leaves what the
    spec's own Validate makes of the spec, after the image (if none was
    named), the master count and the replica count have been overwritten from
    the backup record when initialization was asked for; ensureCluster leaves
    the spec as its call of validate left it. *)
Theorem spec_assigned_by_validate_only (s : State) :
  Spec (st_cluster (exec (waitPodReady r ctx) s)) = Spec (st_cluster s) /\
  Spec (st_cluster (exec (waitForClusterJoin r ctx) s)) = Spec (st_cluster s) /\
  Spec (st_cluster (exec (syncCluster r ctx) s)) = Spec (st_cluster s) /\
  (forall currentMasterNum statefulSetNodes,
     Spec (st_cluster (exec (scalingDown r ctx currentMasterNum statefulSetNodes) s))
     = Spec (st_cluster s)) /\
  (run (validate r) s <> Ok tt ->
   Spec (st_cluster (exec (validate r) s)) = Spec (st_cluster s)) /\
  (Init (Spec (st_cluster s)) = None ->
   Spec (st_cluster (exec (validate r) s)) = Spec (Validate h (st_cluster s))) /\
  (forall source backup,
     Init (Spec (st_cluster s)) = Some {| BackupSource := Some source |} ->
     GetRedisClusterBackup (crController r) (st_trace s)
       (BackupSourceSpec.Namespace source) (BackupSourceSpec.Name source) = inr backup ->
     RedisClusterBackupStatus.Phase (RedisClusterBackup.Status backup)
       = BackupPhaseSucceeded ->
     Spec (st_cluster (exec (validate r) s)) =
     Spec (Validate h (restoredFrom (RedisClusterBackup.Status backup) (st_cluster s)))) /\
  Spec (st_cluster (exec (ensureCluster r ctx) s)) = Spec (st_cluster (exec (validate r) s)).
Proof.
  repeat split.
  - destruct (waitPodReady_adds s) as (evs & H). rewrite (adds_cluster _ _ _ H). reflexivity.
  - destruct (waitForClusterJoin_adds s) as (evs & H).
    rewrite (adds_cluster _ _ _ H). reflexivity.
  - destruct (syncCluster_spec r ctx s) as (evs & H & _).
    rewrite (adds_cluster _ _ _ H). reflexivity.
  - intros cur nodes. destruct (scalingDown_spec r ctx cur nodes s) as (p & k & H & _).
    rewrite (adds_cluster _ _ _ H). reflexivity.
  - intros H. rewrite validate_fails_cluster by exact H. reflexivity.
  - intros H. unfold exec. rewrite (validate_no_init r s H). reflexivity.
  - intros source backup HI HG HP. unfold exec.
    rewrite (validate_succeeded r s source backup HI HG HP). reflexivity.
  - rewrite ensureCluster_cluster. reflexivity.
Qed.

End Frame.

(** C3 fails as stated: validate, and ensureCluster through it, overwrite the
    master count and the replica count of the spec from the backup record. *)
Lemma validate_overwrites_spec :
  let r := reconciler helpers0 (fetchOk BackupPhaseSucceeded) stsFound false in
  let s := start (cluster fromBackup 0 1) in
  Spec (st_cluster s) =
    {| Image := "redis:5"; MasterSize := 3; ClusterReplicas := 1; Init := fromBackup |} /\
  Spec (st_cluster (exec (validate r) s)) =
    {| Image := "redis:5"; MasterSize := 5; ClusterReplicas := 0; Init := fromBackup |} /\
  Spec (st_cluster (exec (ensureCluster r context0) s)) =
    {| Image := "redis:5"; MasterSize := 5; ClusterReplicas := 0; Init := fromBackup |} /\
  Spec (st_cluster (exec (validate r) s)) <> Spec (st_cluster s).
Proof. cbv zeta. repeat split; try reflexivity. vm_compute. discriminate. Qed.

(** validate on a spec with no initialization, on one with no backup source,
    and on one restored from a backup. *)
Lemma spec_assigned_by_validate_only_witness :
  let r := reconciler helpers0 (fetchOk BackupPhaseSucceeded) stsFound false in
  let s := start (cluster None 0 1) in
  let failing := start (cluster noSource 0 1) in
  Spec (st_cluster (exec (validate r) s)) = Spec (st_cluster s) /\
  Spec (st_cluster (exec (validate r) failing)) = Spec (st_cluster failing) /\
  Spec (st_cluster (exec (validate r) (start (cluster fromBackup 0 1)))) =
    {| Image := "redis:5"; MasterSize := 5; ClusterReplicas := 0; Init := fromBackup |}.
Proof.
  intros r s failing. split; [|split].
  - destruct (spec_assigned_by_validate_only r context0 s) as (_ & _ & _ & _ & _ & H & _).
    rewrite H; reflexivity.
  - destruct (spec_assigned_by_validate_only r context0 failing) as (_ & _ & _ & _ & H & _).
    apply H. discriminate.
  - destruct (spec_assigned_by_validate_only r context0 (start (cluster fromBackup 0 1)))
      as (_ & _ & _ & _ & _ & _ & H & _).
    rewrite (H (BackupSourceSpec.mk "ns" "b") (backup BackupPhaseSucceeded));
      reflexivity.
Defined.

(** ** Errors that are returned as they came *)

Section Classified.

Variable r : ReconcileDistributedRedisCluster.
Variable ctx : syncContext.

(** The errors of waitPodReady, waitForClusterJoin and scalingDown all carry a
    kind. *)
Lemma other_steps_classify (s : State) (err : error) :
  (run (waitPodReady r ctx) s = Fail err ->
   GetType err = Some Kubernetes \/ GetType err = Some Requeue) /\
  (run (waitForClusterJoin r ctx) s = Fail err ->
   GetType err = Some Redis \/ GetType err = Some Requeue) /\
  (forall currentMasterNum statefulSetNodes,
     run (scalingDown r ctx currentMasterNum statefulSetNodes) s = Fail err ->
     GetType err = Some Redis \/ GetType err = Some Kubernetes).
Proof.
  split; [|split].
  - unfold waitPodReady. unfold_tick. simpl.
    repeat (case_match; simpl in *; simplify_eq); intros Hrun; simpl in Hrun;
      simplify_eq; simpl; auto.
  - unfold waitForClusterJoin. unfold_tick. simpl.
    repeat (case_match; simpl in *; simplify_eq); intros Hrun; simpl in Hrun;
      simplify_eq; simpl; auto.
  - intros cur nodes H.
    destruct (scalingDown_spec r ctx cur nodes s) as (p & k & _ & _ & _ & Hres).
    rewrite H in Hres. tauto.
Qed.

End Classified.

(** C4 does not hold of the code. When the backup record, found by validate,
    cannot be fetched the second time, ensureCluster returns the error of the
    backup controller as it came, under no kind; and when the slots cannot be
    dispatched to the new masters, syncCluster returns the error of the plan
    as it came. *)
Theorem unclassified_errors_escape :
  let s := start (cluster fromBackup 0 1) in
  let notFound := ApiError false "redisclusterbackups not found" in
  run (validate (reconciler helpers0 fetchOnce stsFound false)) s = Ok tt /\
  run (ensureCluster (reconciler helpers0 fetchOnce stsFound false) context0) s
    = Fail notFound /\
  GetType notFound = None /\
  run (syncCluster (reconcilerWith (planWith 5 3 (Some migrationFailed))) context0)
      (start (cluster None 0 1))
    = Fail migrationFailed /\
  GetType migrationFailed = None.
Proof. cbv zeta. repeat split; vm_compute; reflexivity. Qed.

(** * Further properties of the handler *)

(** Traces as one list appended to the trace at the start. *)
Ltac norm_trace := repeat (progress (simpl; rewrite <- ?app_assoc)); simpl.

(** The places at which an event stands in a trace that is known. *)
Ltac split_trace H :=
  repeat match type of H with
         | [] = ?b ++ _ :: _ => destruct b; discriminate H
         | _ :: _ = ?b ++ _ :: _ =>
           destruct b as [|? ?]; simpl in H;
           [ injection H as ? ? | injection H as ? H ]
         end.

(** A step whose call stands at a known place, and which the ensurer answers
    with an error: either it is the last event, or the answer is known to be
    another. *)
Ltac failing_step Hsplit Hst Herr :=
  split_trace Hsplit; subst; simpl in Hst; try discriminate Hst;
  injection Hst as <-;
  first [ solve [split; [reflexivity | eexists; reflexivity]]
        | exfalso; unfold stepError in Herr; simpl in Herr;
          rewrite ?app_nil_r in Herr;
          repeat match goal with
                 | H : context [(_ ++ _) ++ _] |- _ =>
                   rewrite <- app_assoc in H; simpl in H
                 end;
          first [ congruence
                | repeat match goal with
                         | H : _ = (_, _) |- _ => rewrite H in Herr
                         end;
                  simpl in Herr; congruence ] ].

(** ** validate *)

Section ValidateMore.

Variable r : ReconcileDistributedRedisCluster.

Local Abbreviation h := (helpers r).

Lemma validate_trace (s : State) :
  newEvents (validate r) s =
  match Init (Spec (st_cluster s)) with
  | Some {| BackupSource := Some source |} =>
    [EvGetRedisClusterBackup (BackupSourceSpec.Namespace source)
                             (BackupSourceSpec.Name source)]
  | _ => []
  end.
Proof.
  apply newEvents_app. unfold exec.
  destruct (validate_cases r s) as [HI|HI|src e HI HG|src b HI HG HP|src b HI HG HP];
    rewrite HI; simpl; rewrite ?app_nil_r; reflexivity.
Qed.

(** X1: validate asks for the backup record exactly when the spec names a
    backup source, once, by the namespace and the name of the source; it makes
    no other call. *)
Theorem validate_fetches_named_source (s : State) :
  newEvents (validate r) s =
  match Init (Spec (st_cluster s)) with
  | Some {| BackupSource := Some source |} =>
    [EvGetRedisClusterBackup (BackupSourceSpec.Namespace source)
                             (BackupSourceSpec.Name source)]
  | _ => []
  end.
Proof. exact (validate_trace s). Qed.

Lemma restoredFrom_idempotent (b : RedisClusterBackupStatus.t) (c : DistributedRedisCluster) :
  restoredFrom b (restoredFrom b c) = restoredFrom b c.
Proof.
  unfold restoredFrom. simpl.
  destruct (String.eqb (Image (Spec c)) "") eqn:HE; simpl.
  - destruct (String.eqb (RedisClusterBackupStatus.ClusterImage b) ""); reflexivity.
  - rewrite HE. reflexivity.
Qed.

(** X2: when the spec's own Validate changes nothing, validating a second
    time, with the backup record unchanged, succeeds again and leaves the
    cluster as the first validation left it. *)
Theorem validate_idempotent (s : State) source backup :
  (forall c, Validate h c = c) ->
  Init (Spec (st_cluster s)) = Some {| BackupSource := Some source |} ->
  (forall tr, GetRedisClusterBackup (crController r) tr
                (BackupSourceSpec.Namespace source) (BackupSourceSpec.Name source)
              = inr backup) ->
  RedisClusterBackupStatus.Phase (RedisClusterBackup.Status backup) = BackupPhaseSucceeded ->
  let once := exec (validate r) s in
  run (validate r) s = Ok tt /\
  run (validate r) once = Ok tt /\
  st_cluster (exec (validate r) once) = st_cluster once.
Proof.
  intros HV HI HG HP once. subst once. unfold run, exec.
  rewrite (validate_succeeded r s source backup HI (HG _) HP). simpl.
  rewrite !HV.
  erewrite (validate_succeeded r _ source backup); [| exact HI | apply HG | exact HP].
  simpl. rewrite !HV, restoredFrom_idempotent. auto.
Qed.

End ValidateMore.

Import Scenario.

(** Restoring twice from the succeeded backup of the scenario. *)
Lemma validate_idempotent_witness :
  let r := reconciler helpers0 (fetchOk BackupPhaseSucceeded) stsFound false in
  let once := exec (validate r) (start (cluster fromBackup 0 1)) in
  st_cluster (exec (validate r) once) = st_cluster once.
Proof.
  intros r once.
  exact (proj2 (proj2 (validate_idempotent r (start (cluster fromBackup 0 1))
                         (BackupSourceSpec.mk "ns" "b") (backup BackupPhaseSucceeded)
                         (fun c => eq_refl) eq_refl (fun tr => eq_refl) eq_refl))).
Defined.

(** ** ensureCluster *)

Section EnsureClusterMore.

Variable r : ReconcileDistributedRedisCluster.
Variable ctx : syncContext.

Local Abbreviation h := (helpers r).

(** X3: when validation fails ensureCluster stops there: it returns an error
    of the Kubernetes or the StopRetry kind, calls no ensure step and no wait
    (its only call, if any, is the fetch validate made), and leaves the
    cluster as it was. *)
Theorem ensureCluster_stops_on_invalid (s : State) :
  run (validate r) s <> Ok tt ->
  (exists err, run (ensureCluster r ctx) s = Fail err /\
               (GetType err = Some Kubernetes \/ GetType err = Some StopRetry)) /\
  newEvents (ensureCluster r ctx) s = newEvents (validate r) s /\
  stepsRun (newEvents (ensureCluster r ctx) s) = [] /\
  st_cluster (exec (ensureCluster r ctx) s) = st_cluster s.
Proof.
  intros Hfail. unfold run in Hfail.
  assert (Hv : exists err s', validate r s = (Fail err, s') /\ st_cluster s' = st_cluster s /\
                              stepsRun (newEvents (validate r) s) = []).
  { rewrite validate_trace.
    destruct (validate_cases r s) as [HI|HI|src e HI HG|src b HI HG HP|src b HI HG HP];
      simpl in Hfail; try congruence; rewrite HI; eauto 6. }
  destruct Hv as (err & s' & Hv & Hc & Hsteps).
  assert (He : ensureCluster r ctx s =
               (Fail (if IsRequestRetryable err then Wrap Kubernetes err "Validate"
                      else Wrap StopRetry err "stop retry"), s'))
    by (apply ensureCluster_validate_fails; exact Hv).
  assert (Hev : newEvents (ensureCluster r ctx) s = newEvents (validate r) s).
  { unfold newEvents, exec. rewrite He, Hv. reflexivity. }
  split; [|split; [exact Hev|split]].
  - unfold run. rewrite He. eexists. split; [reflexivity|].
    destruct (IsRequestRetryable err); simpl; auto.
  - rewrite Hev. exact Hsteps.
  - unfold exec. rewrite He. exact Hc.
Qed.

(** X4: ensureCluster calls its ensure steps in the order config map, stateful
    sets, headless services, service, secret, each at most once; when nil is
    returned all five were called; and a step that fails is the last one
    called: wherever the call of a step stands in the trace, if the ensurer
    answers it, there, with an error, no step is called after it and
    ensureCluster returns an error. *)
Theorem ensureCluster_steps_in_order (s : State) :
  let evs := newEvents (ensureCluster r ctx) s in
  let cluster := st_cluster (exec (validate r) s) in
  (exists n,
     stepsRun evs = take n allSteps /\
     (run (ensureCluster r ctx) s = Ok tt -> n = 5%nat)) /\
  (forall before ev after st err,
     evs = before ++ ev :: after ->
     stepOfEvent ev = Some st ->
     stepError r cluster (heldBackup r s) (st_trace s ++ before) st = Some err ->
     stepsRun after = [] /\ exists e, run (ensureCluster r ctx) s = Fail e).
Proof.
  cbv zeta.
  pattern (newEvents (ensureCluster r ctx) s). apply newEvents_elim.
  pose proof (validate_cases r s) as HV.
  unfold heldBackup, run, exec.
  unfold ensureCluster, waiting, fetched in *. unfold_tick.
  destruct (validate r s) as [res s1]; inversion HV; subst res s1; clear HV;
    simpl in *; trace_cases.
  all: split;
    [ first [ exists 5%nat; split; [reflexivity | intros; reflexivity]
            | exists 4%nat; split; [reflexivity | intros; discriminate]
            | exists 3%nat; split; [reflexivity | intros; discriminate]
            | exists 2%nat; split; [reflexivity | intros; discriminate]
            | exists 1%nat; split; [reflexivity | intros; discriminate]
            | exists 0%nat; split; [reflexivity | intros; discriminate] ]
    | intros before ev after st failure Hsplit Hst Herr ].
  all: failing_step Hsplit Hst Herr.
Qed.

(** X5: as long as the spec's own Validate keeps the initialization request of
    the spec, ensureCluster never faults on the backup source, and every fetch
    it makes is by the namespace and the name of the source the spec names. *)
Theorem ensureCluster_never_faults (s : State) :
  (forall c, Init (Spec (Validate h c)) = Init (Spec c)) ->
  (forall msg, run (ensureCluster r ctx) s <> Panic msg) /\
  (forall ns name,
     In (EvGetRedisClusterBackup ns name) (newEvents (ensureCluster r ctx) s) ->
     exists source,
       Init (Spec (st_cluster s)) = Some {| BackupSource := Some source |} /\
       ns = BackupSourceSpec.Namespace source /\ name = BackupSourceSpec.Name source).
Proof.
  intros Hkeep.
  pattern (newEvents (ensureCluster r ctx) s). apply newEvents_elim.
  pose proof (validate_cases r s) as HV.
  unfold ensureCluster, waiting, fetched in *. unfold_tick.
  destruct (validate r s) as [res s1]; inversion HV; subst res s1; clear HV;
    simpl in *; rewrite ?Hkeep in *; simpl in *;
    repeat match goal with H : Init _ = _ |- _ => rewrite H in * end; simpl in *;
    trace_cases;
    (split; [intros msg; discriminate
            | intros ns name Hin; in_trace;
              (eexists; split; [first [reflexivity | eassumption]|auto]) ]).
Qed.

(** X6: an error ensureCluster returns is of the Kubernetes, the StopRetry or
    the Requeue kind, unless it is the error of the fetch of the backup record
    that follows validation, which is returned as it came. *)
Theorem ensureCluster_error_kinds (s : State) (err : error) :
  run (ensureCluster r ctx) s = Fail err ->
  GetType err = Some Kubernetes \/ GetType err = Some StopRetry \/
  GetType err = Some Requeue \/
  exists source,
    BackupSource <$> Init (Spec (st_cluster (exec (validate r) s))) = Some (Some source) /\
    GetRedisClusterBackup (crController r) (st_trace (exec (validate r) s))
      (BackupSourceSpec.Namespace source) (BackupSourceSpec.Name source) = inl err.
Proof.
  pose proof (validate_cases r s) as HV.
  unfold ensureCluster, waiting, fetched in *. unfold_tick.
  destruct (validate r s) as [res s1]; inversion HV; subst res s1; clear HV;
    simpl in *;
    repeat (case_match; simpl in *; simplify_eq);
    intros Hrun; simpl in Hrun; simplify_eq; simpl; auto;
    do 3 right; eexists; (split; [reflexivity|eassumption]).
Qed.

End EnsureClusterMore.

(** A spec that names no backup source: nothing is ensured. *)
Lemma ensureCluster_stops_on_invalid_witness :
  let r := reconciler helpers0 (fetchOk BackupPhaseSucceeded) stsFound false in
  newEvents (ensureCluster r context0) (start (cluster noSource 0 1)) = [].
Proof.
  intros r.
  destruct (ensureCluster_stops_on_invalid r context0 (start (cluster noSource 0 1)))
    as (_ & H & _); [discriminate|].
  rewrite H. reflexivity.
Defined.

(** A run in which every step succeeds calls all five; when the headless
    services cannot be ensured, neither the service nor the secret is, and an
    error is returned. *)
Lemma ensureCluster_steps_in_order_witness :
  let r := reconciler helpers0 (fetchOk BackupPhaseSucceeded) stsFound true in
  let s := start (cluster None 0 1) in
  stepsRun (newEvents (ensureCluster r context0) s) = allSteps /\
  exists e, run (ensureCluster ExtraScenario.failingServices context0) s = Fail e.
Proof.
  intros r s. split.
  - destruct (ensureCluster_steps_in_order r context0 s) as ((n & Hsteps & Hn) & _).
    rewrite Hsteps, Hn; reflexivity.
  - destruct (ensureCluster_steps_in_order ExtraScenario.failingServices context0 s)
      as (_ & Hlast).
    refine (proj2 (Hlast [EvEnsureRedisConfigMap; EvEnsureRedisStatefulsets false None]
                     EvEnsureRedisHeadLessSvcs [] HeadlessStep (ApiError true "timeout")
                     _ _ _)); vm_compute; reflexivity.
Defined.

(** The helpers of the scenario, whose Validate is the identity. *)
Lemma ensureCluster_never_faults_witness :
  run (ensureCluster (reconciler helpers0 (fetchOk BackupPhaseSucceeded) stsFound false)
         context0) (start (cluster fromBackup 0 1))
  <> Panic "nil pointer dereference".
Proof.
  exact (proj1 (ensureCluster_never_faults
                  (reconciler helpers0 (fetchOk BackupPhaseSucceeded) stsFound false)
                  context0 (start (cluster fromBackup 0 1)) (fun c => eq_refl))
               "nil pointer dereference").
Defined.

(** The record that is gone when ensureCluster asks for it again. *)
Lemma ensureCluster_error_kinds_witness :
  let r := reconciler helpers0 fetchOnce stsFound false in
  let s := start (cluster fromBackup 0 1) in
  exists source,
    GetRedisClusterBackup (crController r) (st_trace (exec (validate r) s))
      (BackupSourceSpec.Namespace source) (BackupSourceSpec.Name source)
    = inl (ApiError false "redisclusterbackups not found").
Proof.
  intros r s.
  destruct (ensureCluster_error_kinds r context0 s
              (ApiError false "redisclusterbackups not found") eq_refl)
    as [H|[H|[H|(source & _ & H)]]]; try discriminate.
  exists source. exact H.
Defined.

(** ** waitPodReady *)

Section WaitPodReadyMore.

Variable r : ReconcileDistributedRedisCluster.
Variable ctx : syncContext.

(** X7: waitPodReady gives the healer five minutes; when the healer fails it
    returns its error under the Kubernetes kind and never checks the number of
    nodes; otherwise it checks it once, and returns the error of the check
    under the Requeue kind, or nil. *)
Theorem waitPodReady_steps (s : State) :
  let heal := EvFixTerminatingPods (5 * Minute) in
  match snd (FixTerminatingPods (healer ctx) (st_trace s) (st_cluster s) (5 * Minute)) with
  | Some err =>
    run (waitPodReady r ctx) s = Fail (Wrap Kubernetes err "FixTerminatingPods") /\
    newEvents (waitPodReady r ctx) s = [heal]
  | None =>
    newEvents (waitPodReady r ctx) s = [heal; EvCheckRedisNodeNum] /\
    run (waitPodReady r ctx) s =
    match CheckRedisNodeNum (checker r) (st_trace s ++ [heal]) (st_cluster s) with
    | Some err => Fail (Wrap Requeue err "CheckRedisNodeNum")
    | None => Ok tt
    end
  end.
Proof.
  cbv zeta. unfold newEvents, waitPodReady. unfold_tick. simpl.
  destruct (FixTerminatingPods _ _ _ _) as [fixed [err|]]; simpl.
  - rewrite drop_app_length. auto.
  - destruct (CheckRedisNodeNum _ _ _); simpl;
      rewrite <- ?app_assoc; rewrite ?drop_app_length; auto.
Qed.

End WaitPodReadyMore.

Import JoinScenario.


(** ** syncCluster *)

Section SyncClusterMore.

Variable r : ReconcileDistributedRedisCluster.
Variable ctx : syncContext.

Local Abbreviation h := (helpers r).

Ltac sync_conditions :=
  repeat match goal with
         | H : _ = 0 |- _ => apply Z.eqb_eq in H; rewrite H
         | H : _ <> 0 |- _ => apply Z.eqb_neq in H; rewrite H
         | H : _ < _ |- _ => apply Z.ltb_lt in H; rewrite H
         | H : _ <= _ |- _ => apply Z.ltb_ge in H; rewrite H
         end.

(** X9: when the plan finds current masters, no more new masters than current
    ones, the replication factor wanted and no more current masters than the
    spec asks for, syncCluster returns nil after the plan and its log line: it
    places nothing, moves no slot and retires nothing. *)
Theorem syncCluster_converged (s : State) clusterCtx :
  let c := st_cluster s in
  let tr := st_trace s ++ [EvDispatchMasters] in
  let cur := len (GetCurrentMasters clusterCtx tr) in
  let new := len (GetNewMasters clusterCtx tr) in
  newRedisCluster h (clusterInfos ctx) c = inr clusterCtx ->
  DispatchMasters clusterCtx (st_trace s) = None ->
  cur <> 0 -> new <= cur ->
  ClusterReplicas (Spec c) <= MinReplicationFactor (Status c) ->
  cur <= MasterSize (Spec c) ->
  run (syncCluster r ctx) s = Ok tt /\
  newEvents (syncCluster r ctx) s = [EvDispatchMasters; EvLog "masters"].
Proof.
  intros c tr cur new Hplan Hdispatch H0 Hnew Hrep Hcur. subst c tr cur new.
  unfold newEvents, syncCluster. unfold_tick. rewrite Hplan. simpl. rewrite Hdispatch. simpl.
  sync_conditions. simpl. rewrite <- app_assoc, drop_app_length. auto.
Qed.

(** X10: in the scale-down branch, when the slots cannot be dispatched to the
    new masters, syncCluster returns that error and stops: no connection is
    removed, no node forgotten and no resource deleted. *)
Theorem syncCluster_keeps_groups_when_dispatch_fails (s : State) clusterCtx err :
  let c := st_cluster s in
  let tr := st_trace s ++ [EvDispatchMasters] in
  let curMasters := GetCurrentMasters clusterCtx tr in
  let newMasters := GetNewMasters clusterCtx tr in
  newRedisCluster h (clusterInfos ctx) c = inr clusterCtx ->
  DispatchMasters clusterCtx (st_trace s) = None ->
  len curMasters <> 0 -> len newMasters <= len curMasters ->
  ClusterReplicas (Spec c) <= MinReplicationFactor (Status c) ->
  MasterSize (Spec c) < len curMasters ->
  DispatchSlotToNewMasters clusterCtx
    (st_trace s ++ [EvDispatchMasters; EvLog "masters"; EvLog "Scaling down"])
    newMasters curMasters (newMasters ++ curMasters) = Some err ->
  run (syncCluster r ctx) s = Fail err /\
  newEvents (syncCluster r ctx) s =
    [EvDispatchMasters; EvLog "masters"; EvLog "Scaling down"; EvDispatchSlotToNewMasters] /\
  Forall (fun ev => isRetirement ev = false) (newEvents (syncCluster r ctx) s).
Proof.
  intros c tr cur new Hplan Hdispatch H0 Hnew Hrep Hcur Hslots. subst c tr cur new.
  assert (H : syncCluster r ctx s =
              (Fail err,
               mkState (st_cluster s)
                 (st_trace s ++ [EvDispatchMasters; EvLog "masters"; EvLog "Scaling down";
                                 EvDispatchSlotToNewMasters]))).
  { unfold syncCluster. unfold_tick. rewrite Hplan. simpl. rewrite Hdispatch. simpl.
    apply Z.eqb_neq in H0. apply Z.ltb_ge in Hnew. apply Z.ltb_ge in Hrep.
    apply Z.ltb_lt in Hcur. rewrite H0, Hnew, Hrep, Hcur. simpl.
    rewrite <- ?app_assoc. simpl. rewrite Hslots. simpl. rewrite <- ?app_assoc. reflexivity. }
  unfold run, newEvents, exec. rewrite H. simpl. rewrite drop_app_length.
  repeat split. repeat constructor.
Qed.

(** X11: the traces of the three branches that grow the cluster, when
    syncCluster returns nil: replicas are placed, then attached, and only then
    are the slots allocated (bootstrap) or rebalanced (scale-up); the
    scale-replicas branch stops after the attachment. *)
Theorem syncCluster_growth_traces (s : State) clusterCtx :
  let c := st_cluster s in
  let tr := st_trace s ++ [EvDispatchMasters] in
  let cur := len (GetCurrentMasters clusterCtx tr) in
  let new := len (GetNewMasters clusterCtx tr) in
  let evs := newEvents (syncCluster r ctx) s in
  newRedisCluster h (clusterInfos ctx) c = inr clusterCtx ->
  DispatchMasters clusterCtx (st_trace s) = None ->
  run (syncCluster r ctx) s = Ok tt ->
  (cur = 0 ->
   evs = [EvDispatchMasters; EvLog "masters"; EvLog "Creating cluster";
          EvPlaceSlaves; EvAttachingSlavesToMaster; EvAllocSlots]) /\
  (cur <> 0 -> cur < new ->
   evs = [EvDispatchMasters; EvLog "masters"; EvLog "Scaling up";
          EvPlaceSlaves; EvAttachingSlavesToMaster; EvRebalancedCluster]) /\
  (cur <> 0 -> new <= cur -> MinReplicationFactor (Status c) < ClusterReplicas (Spec c) ->
   evs = [EvDispatchMasters; EvLog "masters"; EvLog "Scaling slave";
          EvPlaceSlaves; EvAttachingSlavesToMaster]).
Proof.
  intros c tr cur new evs Hplan Hdispatch. subst c tr cur new evs.
  unfold run, newEvents, syncCluster. unfold_tick. rewrite Hplan. simpl.
  rewrite Hdispatch. simpl. intros Hrun. repeat split.
  - intros H0. apply Z.eqb_eq in H0. rewrite H0 in *. simpl in *.
    repeat (case_match; simpl in *; simplify_eq);
      norm_trace; rewrite ?drop_app_length; reflexivity.
  - intros H0 H1. apply Z.eqb_neq in H0. apply Z.ltb_lt in H1. rewrite H0, H1 in *.
    simpl in *.
    repeat (case_match; simpl in *; simplify_eq);
      norm_trace; rewrite ?drop_app_length; reflexivity.
  - intros H0 H1 H2. apply Z.eqb_neq in H0. apply Z.ltb_ge in H1. apply Z.ltb_lt in H2.
    rewrite H0, H1, H2 in *. simpl in *.
    repeat (case_match; simpl in *; simplify_eq);
      norm_trace; rewrite ?drop_app_length; reflexivity.
Qed.

End SyncClusterMore.

(** ** What a program may add to the trace *)

Section Emits.

Variable P : Event -> Prop.

Lemma emits_ret {A} (a : A) : emits P (ret a).
Proof. intros s. exists []. unfold adds, exec, ret. simpl. rewrite app_nil_r, state_eta. auto. Qed.

Lemma emits_returnErr {A} (err : error) : emits P (@returnErr A err).
Proof.
  intros s. exists []. unfold adds, exec, returnErr. simpl.
  rewrite app_nil_r, state_eta. auto.
Qed.

Lemma emits_getCluster : emits P getCluster.
Proof.
  intros s. exists []. unfold adds, exec, getCluster. simpl.
  rewrite app_nil_r, state_eta. auto.
Qed.

Lemma emits_emit (ev : Event) : P ev -> emits P (emit ev).
Proof. intros H s. exists [ev]. unfold adds, exec, emit. simpl. auto. Qed.

Lemma emits_call {R} (method : Trace -> R) (ev : R -> Event) :
  (forall res, P (ev res)) -> emits P (call method ev).
Proof. intros H s. eexists [_]. unfold adds, exec, call. simpl. auto. Qed.

Lemma emits_bind {A B} (m : M A) (f : A -> M B) :
  emits P m -> (forall a, emits P (f a)) -> emits P (bind m f).
Proof.
  intros Hm Hf s. destruct (Hm s) as (evs1 & Hadd1 & Hall1).
  unfold adds, exec, bind in *. destruct (m s) as [[a|err|msg] s1]; simpl in Hadd1; subst s1.
  - destruct (Hf a (mkState (st_cluster s) (st_trace s ++ evs1))) as (evs2 & Hadd2 & Hall2).
    unfold adds, exec in Hadd2. simpl in Hadd2. rewrite <- app_assoc in Hadd2.
    exists (evs1 ++ evs2). split; [exact Hadd2|]. apply Forall_app_2; assumption.
  - exists evs1. auto.
  - exists evs1. auto.
Qed.

Lemma emits_errorOf (m : M unit) : emits P m -> emits P (errorOf m).
Proof.
  intros Hm s. destruct (Hm s) as (evs & Hadd & Hall). exists evs. split; [|exact Hall].
  unfold adds, exec, errorOf in *. destruct (m s) as [[a|err|msg] s1]; exact Hadd.
Qed.

Lemma emits_forRange {A} (l : list A) (body : A -> M unit) :
  (forall x, emits P (body x)) -> emits P (forRange l body).
Proof.
  intros Hbody. induction l as [|x l IH]; simpl.
  - apply emits_ret.
  - apply emits_bind; [apply Hbody | intros _; exact IH].
Qed.

Lemma emits_check (err : option error) (wrapped : error -> error) :
  emits P (check err wrapped).
Proof. destruct err; [apply emits_returnErr | apply emits_ret]. Qed.

Lemma emits_logged (what : string) (err : option error) :
  P (EvLog what) -> emits P (logged what err).
Proof. intros H. destruct err; [apply emits_emit, H | apply emits_ret]. Qed.

End Emits.

Lemma scalingDown_emits (r : ReconcileDistributedRedisCluster) (ctx : syncContext)
    (currentMasterNum : Z) (statefulSetNodes : gmap string Nodes) :
  emits (fun ev => isScalingDownEvent ev = true)
    (scalingDown r ctx currentMasterNum statefulSetNodes).
Proof.
  unfold scalingDown.
  apply emits_bind; [apply emits_getCluster|]. intros cluster.
  apply emits_bind; [|intros _]; apply emits_forRange; intros i.
  - unfold removeConnections. apply emits_forRange. intros node. apply emits_emit. reflexivity.
  - unfold retireGroup, waiting.
    apply emits_bind; [apply emits_emit; reflexivity|]. intros _.
    apply emits_bind; [apply emits_call; reflexivity|]. intros [err|sts];
      [apply emits_returnErr|].
    apply emits_bind.
    { apply emits_forRange. intros node. unfold forgetNode.
      apply emits_bind; [apply emits_emit; reflexivity|]. intros _.
      destruct (0 <? _); [apply emits_returnErr|].
      apply emits_bind; [apply emits_call; reflexivity|]. intros err. apply emits_check. }
    intros _.
    repeat (apply emits_bind;
            [first [ apply emits_call; reflexivity
                   | apply emits_logged; reflexivity
                   | apply emits_errorOf; apply emits_bind;
                     [apply emits_call; reflexivity
                     | intros [|]; [apply emits_returnErr | apply emits_ret]] ]
            | intros ?]).
    apply emits_logged. reflexivity.
Qed.

Section SyncClusterBranches.

Variable r : ReconcileDistributedRedisCluster.
Variable ctx : syncContext.

Local Abbreviation h := (helpers r).

Ltac branch_facts :=
  repeat split; intros; in_trace; simpl in *; try reflexivity; try discriminate.

(** X12: in a tick of syncCluster slots are allocated only in the bootstrap
    branch, rebalanced only in the scale-up branch and dispatched to the new
    masters only in the scale-down branch; connections are removed, nodes
    forgotten and resources deleted only in the scale-down branch. The
    scale-replicas branch moves no slot and retires nothing. *)
Theorem syncCluster_slot_operations (s : State) :
  let evs := newEvents (syncCluster r ctx) s in
  let ran := branchesRun evs in
  (In EvAllocSlots evs -> ran = [Bootstrap]) /\
  (In EvRebalancedCluster evs -> ran = [ScaleUp]) /\
  (In EvDispatchSlotToNewMasters evs -> ran = [ScaleDown]) /\
  (forall ev, In ev evs -> isRetirement ev = true -> ran = [ScaleDown]) /\
  (ran = [ScaleReplicas] ->
   Forall (fun ev => isSlotOperation ev = false /\ isRetirement ev = false) evs).
Proof.
  cbv zeta. pattern (newEvents (syncCluster r ctx) s). apply newEvents_elim.
  unfold syncCluster. unfold_tick. simpl.
  destruct (newRedisCluster h (clusterInfos ctx) (st_cluster s)) as [err|clusterCtx];
    [exists []; rewrite app_nil_r; split; [reflexivity|branch_facts; constructor]|].
  destruct (DispatchMasters clusterCtx (st_trace s)) as [err|]; simpl;
    [eexists; split; [reflexivity|branch_facts]|].
  destruct (len (GetCurrentMasters clusterCtx _) =? 0); simpl.
  { repeat (case_match; simpl in *; simplify_eq);
      (norm_trace; eexists; split; [reflexivity|branch_facts]). }
  destruct (len (GetCurrentMasters clusterCtx _) <? len (GetNewMasters clusterCtx _)); simpl.
  { repeat (case_match; simpl in *; simplify_eq);
      (norm_trace; eexists; split; [reflexivity|branch_facts]). }
  destruct (MinReplicationFactor _ <? ClusterReplicas _); simpl.
  { repeat (case_match; simpl in *; simplify_eq);
      (norm_trace; eexists; split; [reflexivity|branch_facts]);
      repeat constructor. }
  destruct (MasterSize _ <? len _); simpl;
    [|norm_trace; eexists; split; [reflexivity|branch_facts]].
  destruct (DispatchSlotToNewMasters clusterCtx _ _ _ _) as [err|]; simpl;
    [norm_trace; eexists; split; [reflexivity|branch_facts]|].
  match goal with |- context [scalingDown r ctx ?n ?m ?s1] =>
    destruct (scalingDown_announces_nothing r ctx n m s1) as (evs & Hadd & Hnone & _);
    destruct (scalingDown_emits r ctx n m s1) as (evs' & Hadd' & Hall);
    rewrite <- (adds_unique _ _ _ _ Hadd Hadd') in Hall; clear Hadd' evs';
    unfold adds, exec in Hadd;
    destruct (scalingDown r ctx n m s1) as [res s2] end.
  simpl in Hadd. subst s2.
  exists ([EvDispatchMasters; EvLog "masters"; EvLog "Scaling down";
           EvDispatchSlotToNewMasters] ++ evs).
  assert (Hran : branchesRun ([EvDispatchMasters; EvLog "masters"; EvLog "Scaling down";
                               EvDispatchSlotToNewMasters] ++ evs) = [ScaleDown])
    by (rewrite branchesRun_app, Hnone; reflexivity).
  split; [destruct res; norm_trace; reflexivity|].
  rewrite Hran. rewrite List.Forall_forall in Hall.
  repeat split; try reflexivity; try discriminate.
  - intros Hin. simpl in Hin. destruct Hin as [Hin|[Hin|[Hin|[Hin|Hin]]]];
      try discriminate. apply Hall in Hin. discriminate.
  - intros Hin. simpl in Hin. destruct Hin as [Hin|[Hin|[Hin|[Hin|Hin]]]];
      try discriminate. apply Hall in Hin. discriminate.
Qed.

(** X13: an error syncCluster returns is of the Cluster kind when a step of
    the plan failed, of the Redis or the Kubernetes kind when it comes from
    scalingDown, and otherwise is the error of the dispatch of the slots to
    the new masters, returned as it came. *)
Theorem syncCluster_error_kinds (s : State) (err : error) :
  run (syncCluster r ctx) s = Fail err ->
  GetType err = Some Cluster \/ GetType err = Some Redis \/ GetType err = Some Kubernetes \/
  exists clusterCtx tr newMasters curMasters,
    newRedisCluster h (clusterInfos ctx) (st_cluster s) = inr clusterCtx /\
    DispatchSlotToNewMasters clusterCtx tr newMasters curMasters (newMasters ++ curMasters)
    = Some err.
Proof.
  unfold syncCluster. unfold_tick. simpl.
  destruct (newRedisCluster h (clusterInfos ctx) (st_cluster s)) as [e|clusterCtx] eqn:Hplan;
    [intros [= <-]; auto|].
  destruct (DispatchMasters clusterCtx (st_trace s)) as [e|]; simpl; [intros [= <-]; auto|].
  destruct (len (GetCurrentMasters clusterCtx _) =? 0); simpl.
  { repeat (case_match; simpl in *; simplify_eq); intros Hrun; simpl in Hrun;
      simplify_eq; auto. }
  destruct (len (GetCurrentMasters clusterCtx _) <? len (GetNewMasters clusterCtx _)); simpl.
  { repeat (case_match; simpl in *; simplify_eq); intros Hrun; simpl in Hrun;
      simplify_eq; auto. }
  destruct (MinReplicationFactor _ <? ClusterReplicas _); simpl.
  { repeat (case_match; simpl in *; simplify_eq); intros Hrun; simpl in Hrun;
      simplify_eq; auto. }
  destruct (MasterSize _ <? len _); simpl; [|discriminate].
  destruct (DispatchSlotToNewMasters clusterCtx _ _ _ _) as [e|] eqn:Hslots; simpl.
  { intros [= <-]. do 3 right. eauto 8. }
  match goal with |- context [scalingDown r ctx ?n ?m ?s1] =>
    destruct (scalingDown_spec r ctx n m s1) as (p & k & _ & _ & _ & Hres);
    unfold run in Hres;
    destruct (scalingDown r ctx n m s1) as [res s2] end.
  simpl in *. destruct res; intros Hrun; simplify_eq. tauto.
Qed.

End SyncClusterBranches.

(** ** scalingDown: the steps of a retirement *)

Lemma retireSteps_app (evs1 evs2 : Trace) :
  retireSteps (evs1 ++ evs2) = retireSteps evs1 ++ retireSteps evs2.
Proof. unfold retireSteps. apply omap_app. Qed.

Lemma retireSteps_removals (h : Helpers) (c : DistributedRedisCluster)
    (nodes : gmap string Nodes) (ords : list Z) :
  retireSteps (removals h c nodes ords) = [].
Proof.
  induction (removals_only h c nodes ords) as [|ev evs Hev _ IH]; [reflexivity|].
  change (ev :: evs) with ([ev] ++ evs). rewrite retireSteps_app, IH.
  destruct ev; try discriminate. reflexivity.
Qed.

Lemma countdown_empty (hi lo : Z) : hi < lo -> countdown hi lo = [].
Proof. intros H. unfold countdown. replace (Z.to_nat (hi - lo + 1)) with 0%nat by lia. reflexivity. Qed.

Section RetirementSteps.

Variable r : ReconcileDistributedRedisCluster.
Variable ctx : syncContext.
Variable cluster : DistributedRedisCluster.
Variable statefulSetNodes : gmap string Nodes.

Local Abbreviation h := (helpers r).
Local Abbreviation forgets := (map (fun node : Node => Forget (ID node))).

Lemma forgetNode_loop_steps (nodes : Nodes) (s : State) :
  exists evs n,
    adds (forRange nodes (forgetNode r ctx)) s evs /\
    retireSteps evs = forgets (take n nodes) /\
    match run (forRange nodes (forgetNode r ctx)) s with
    | Ok _ => n = length nodes
    | Fail _ => True
    | Panic _ => False
    end.
Proof.
  revert s. induction nodes as [|node nodes IH]; intros s.
  - exists [], 0%nat. unfold adds, run, exec. simpl. unfold ret. simpl.
    rewrite app_nil_r, state_eta. auto.
  - unfold adds, run, exec in *. rewrite forRange_cons, forgetNode_step. cbv zeta.
    destruct (Slots node) as [|slot slots]; simpl.
    + destruct (ForgetNode (admin ctx) _ (ID node)) as [err|]; simpl.
      * exists [EvLog "forgetNode"; EvForgetNode (ID node)], 1%nat.
        rewrite <- app_assoc. simpl. auto.
      * match goal with |- context [forRange nodes _ ?s1] =>
          destruct (IH s1) as (evs & n & Hadd & Hsteps & Hres) end.
        simpl in Hadd. rewrite <- !app_assoc in *. simpl in *.
        exists (EvLog "forgetNode" :: EvForgetNode (ID node) :: evs), (S n).
        split; [exact Hadd|]. split.
        -- change (retireSteps (?a :: ?b :: evs)) with (retireSteps ([a; b] ++ evs)).
           rewrite retireSteps_app, Hsteps. reflexivity.
        -- destruct (forRange nodes _ _) as [[| |] ?]; simpl in *; auto.
    + exists [EvLog "forgetNode"], 0%nat. auto.
Qed.

Lemma retireGroup_steps (i : Z) (s : State) :
  exists evs,
    adds (retireGroup r ctx cluster statefulSetNodes i) s evs /\
    match run (retireGroup r ctx cluster statefulSetNodes i) s with
    | Ok _ => retireSteps evs = groupSteps h cluster statefulSetNodes i
    | Fail _ =>
      exists n, retireSteps evs = forgets (take n (groupNodes h cluster statefulSetNodes i))
    | Panic _ => False
    end.
Proof.
  unfold retireGroup, waiting, groupSteps, waitTimeout. unfold_tick. simpl.
  destruct (GetStatefulSet _ _ _ _) as [err|sts]; simpl.
  - eexists. rewrite <- !app_assoc. simpl. split; [reflexivity|].
    exists 0%nat. reflexivity.
  - match goal with |- context [forRange ?l _ ?s1] =>
      destruct (forgetNode_loop_steps l s1) as (evsF & n & Hadd & Hsteps & Hres) end.
    unfold adds, run, exec in Hadd, Hres.
    fold (groupNodes h cluster statefulSetNodes i) in *.
    destruct (forRange _ _ _) as [[[]|err|msg] s2]; simpl in Hadd, Hres; subst s2; simpl;
      [|rewrite <- ?app_assoc; simpl; eexists|destruct Hres].
    + subst n. rewrite firstn_all in Hsteps.
      repeat (case_match; simpl in *; simplify_eq);
        (norm_trace; eexists; split; [reflexivity|]);
        match goal with |- retireSteps (?a :: ?b :: ?l) = _ =>
          change (a :: b :: l) with ([a; b] ++ l) end;
        rewrite !retireSteps_app, Hsteps; reflexivity.
    + split; [reflexivity|]. exists n.
      match goal with |- retireSteps (?a :: ?b :: ?l) = _ =>
        change (a :: b :: l) with ([a; b] ++ l) end.
      rewrite retireSteps_app, Hsteps. reflexivity.
Qed.

Lemma retireGroup_loop_steps (ords : list Z) (s : State) :
  exists evs k partial,
    adds (forRange ords (retireGroup r ctx cluster statefulSetNodes)) s evs /\
    retireSteps evs =
      flat_map (groupSteps h cluster statefulSetNodes) (take k ords) ++ forgets partial /\
    match run (forRange ords (retireGroup r ctx cluster statefulSetNodes)) s with
    | Ok _ => k = length ords /\ partial = []
    | Fail _ =>
      exists i n, ords !! k = Some i /\
                  partial = take n (groupNodes h cluster statefulSetNodes i)
    | Panic _ => False
    end.
Proof.
  revert s. induction ords as [|i ords IH]; intros s.
  - exists [], 0%nat, []. unfold adds, run, exec. simpl. unfold ret. simpl.
    rewrite app_nil_r, state_eta. auto.
  - destruct (retireGroup_steps i s) as (evs1 & Hadd1 & Hres1).
    unfold adds, run, exec in *. rewrite forRange_cons.
    destruct (retireGroup r ctx cluster statefulSetNodes i s) as [[[]|err|msg] s1];
      simpl in Hadd1, Hres1; subst s1.
    + match goal with |- context [forRange ords _ ?s1] =>
        destruct (IH s1) as (evs2 & k & partial & Hadd2 & Hsteps2 & Hres2) end.
      simpl in Hadd2. rewrite <- app_assoc in Hadd2.
      exists (evs1 ++ evs2), (S k), partial. split; [exact Hadd2|]. split.
      * rewrite retireSteps_app, Hres1, Hsteps2. simpl. rewrite <- app_assoc. reflexivity.
      * destruct (forRange ords _ _) as [[[]|err|msg] s2]; simpl in *.
        -- destruct Hres2 as [-> ->]. auto.
        -- exact Hres2.
        -- exact Hres2.
    + destruct Hres1 as [n Hsteps]. exists evs1, 0%nat, (take n (groupNodes h cluster statefulSetNodes i)).
      simpl. split; [reflexivity|]. split; [exact Hsteps|]. exists i, n. auto.
    + destruct Hres1.
Qed.

End RetirementSteps.

Lemma scalingDown_steps (r : ReconcileDistributedRedisCluster) (ctx : syncContext)
    (currentMasterNum : Z) (statefulSetNodes : gmap string Nodes) (s : State) :
  let c := st_cluster s in
  let ords := countdown (int_sub currentMasterNum 1) (MasterSize (Spec c)) in
  exists evs k partial,
    adds (scalingDown r ctx currentMasterNum statefulSetNodes) s evs /\
    retireSteps evs =
      flat_map (groupSteps (helpers r) c statefulSetNodes) (take k ords) ++
      map (fun node => Forget (ID node)) partial /\
    match run (scalingDown r ctx currentMasterNum statefulSetNodes) s with
    | Ok _ => k = length ords /\ partial = []
    | Fail _ =>
      exists i n, ords !! k = Some i /\
                  partial = take n (groupNodes (helpers r) c statefulSetNodes i)
    | Panic _ => False
    end.
Proof.
  intros c ords. unfold scalingDown, adds, run, exec, bind, getCluster. fold c. fold ords.
  rewrite removeConnections_all.
  match goal with |- context [forRange ords _ ?s1] =>
    destruct (retireGroup_loop_steps r ctx c statefulSetNodes ords s1)
      as (pass2 & k & partial & Hadd & Hsteps & Hres) end.
  unfold adds, run, exec in Hadd, Hres. simpl in Hadd. rewrite <- app_assoc in Hadd.
  exists (removals (helpers r) c statefulSetNodes ords ++ pass2), k, partial.
  split; [exact Hadd|]. split; [|exact Hres].
  rewrite retireSteps_app, retireSteps_removals. exact Hsteps.
Qed.

Lemma retireSteps_In (evs : Trace) (ev : Event) (step : RetireStep) :
  In ev evs -> retireStep ev = Some step -> In step (retireSteps evs).
Proof.
  intros Hin Hstep. apply list_elem_of_In. unfold retireSteps.
  apply list_elem_of_omap. exists ev. split; [apply list_elem_of_In, Hin | exact Hstep].
Qed.

Lemma retireSteps_forget (evs : Trace) (id : string) :
  In (Forget id) (retireSteps evs) -> In (EvForgetNode id) evs.
Proof.
  intros Hin. apply list_elem_of_In in Hin. unfold retireSteps in Hin.
  apply list_elem_of_omap in Hin as (ev & Hev & Hstep).
  apply list_elem_of_In in Hev. destruct ev; try discriminate.
  injection Hstep as ->. exact Hev.
Qed.

Lemma forgets_before_deletion (h : Helpers) (c : DistributedRedisCluster)
    (nodes : gmap string Nodes) (ords : list Z) (partial : Nodes) (name : string)
    (before after : list RetireStep) :
  flat_map (groupSteps h c nodes) ords ++ map (fun node => Forget (ID node)) partial
    = before ++ DeleteSet name :: after ->
  exists j,
    In j ords /\ ClusterStatefulSetName h (Name c) j = name /\
    forall node, In node (groupNodes h c nodes j) -> In (Forget (ID node)) before.
Proof.
  revert before. induction ords as [|j ords IH]; intros before H; simpl in H.
  - assert (Hin : In (DeleteSet name) (map (fun node => Forget (ID node)) partial))
      by (rewrite H; apply in_elt).
    apply in_map_iff in Hin as (n & Hn & _). discriminate.
  - rewrite <- app_assoc in H.
    apply app_eq_inv in H as [(k & Hgroup & Hrest)|(k & -> & Hrest)].
    + destruct k as [|step k]; simpl in Hrest.
      * destruct (IH [] (eq_sym Hrest)) as (j' & Hj' & Hname & Hnone).
        exists j'. split; [right; exact Hj'|]. split; [exact Hname|].
        intros node Hnode. destruct (Hnone node Hnode).
      * injection Hrest as <- _. unfold groupSteps in Hgroup.
        apply app_eq_inv in Hgroup as [(m & Hforgets & Hfive)|(m & -> & Hfive)].
        -- destruct m as [|step m]; simpl in Hfive.
           ++ injection Hfive as Hname _. rewrite app_nil_r in Hforgets.
              exists j. split; [left; reflexivity|]. split; [auto|].
              intros node Hnode. rewrite <- Hforgets. apply in_map_iff. eauto.
           ++ injection Hfive as <- _.
              assert (Hin : In (DeleteSet name)
                              (map (fun node => Forget (ID node)) (groupNodes h c nodes j)))
                by (rewrite Hforgets; apply in_elt).
              apply in_map_iff in Hin as (n & Hn & _). discriminate.
        -- destruct m as [|m1 [|m2 [|m3 [|m4 [|m5 m]]]]]; simpl in Hfive;
             try discriminate Hfive.
           ++ injection Hfive as Hname _. exists j. split; [left; reflexivity|].
              split; [auto|]. intros node Hnode. apply in_or_app. left.
              apply in_map_iff. eauto.
           ++ destruct m; discriminate Hfive.
    + destruct (IH k Hrest) as (j' & Hj' & Hname & Hbefore).
      exists j'. split; [right; exact Hj'|]. split; [exact Hname|].
      intros node Hnode. apply in_or_app. right. auto.
Qed.

Section ScalingDownMore.

Variable r : ReconcileDistributedRedisCluster.
Variable ctx : syncContext.
Variable currentMasterNum : Z.
Variable statefulSetNodes : gmap string Nodes.

Local Abbreviation h := (helpers r).
Local Abbreviation down := (scalingDown r ctx currentMasterNum statefulSetNodes).

(** X14: when the current masters are no more than the spec asks for there is
    no group to retire: scalingDown returns nil and makes no call at all. *)
Theorem scalingDown_nothing_to_retire (s : State) :
  min_int < currentMasterNum <= max_int ->
  currentMasterNum <= MasterSize (Spec (st_cluster s)) ->
  run down s = Ok tt /\ newEvents down s = [].
Proof.
  intros Hint Hle.
  assert (H : down s = (Ok tt, s)).
  { unfold scalingDown, bind, getCluster.
    rewrite int_sub_small by (unfold min_int, max_int in *; lia).
    rewrite countdown_empty by lia. reflexivity. }
  unfold run, newEvents, exec. rewrite H. simpl. rewrite drop_all. auto.
Qed.

(** X15: the steps of a retirement, in order. scalingDown retires the groups
    of a prefix of the ordinals, each one in full: every node of the group is
    asked to be forgotten, in the order of the list, then the stateful set,
    the service, the disruption budget and the storage claims are deleted,
    then the pods are waited for, with a timeout of 30 seconds times (replica
    count + 2) and a tick of 5 seconds. When nil is returned the prefix is the
    whole of the ordinals; when an error is returned the only further steps
    are forget requests for the first nodes of the group it stopped at. *)
Theorem scalingDown_retirement_steps (s : State) :
  let c := st_cluster s in
  let ords := countdown (int_sub currentMasterNum 1) (MasterSize (Spec c)) in
  exists k partial,
    retireSteps (newEvents down s) =
      flat_map (groupSteps h c statefulSetNodes) (take k ords) ++
      map (fun node => Forget (ID node)) partial /\
    (run down s = Ok tt -> k = length ords /\ partial = []) /\
    (forall err, run down s = Fail err ->
       exists i n, ords !! k = Some i /\
                   partial = take n (groupNodes h c statefulSetNodes i)).
Proof.
  intros c ords.
  destruct (scalingDown_steps r ctx currentMasterNum statefulSetNodes s)
    as (evs & k & partial & Hadd & Hsteps & Hres).
  fold c in Hsteps, Hres. fold ords in Hsteps, Hres.
  rewrite (adds_newEvents _ _ _ Hadd). exists k, partial.
  split; [exact Hsteps|]. split.
  - intros Hok. rewrite Hok in Hres. exact Hres.
  - intros err Herr. rewrite Herr in Hres. exact Hres.
Qed.

(** X16: scalingDown deletes the stateful set of a group only after it has
    asked the cluster to forget every node of that group: wherever the
    deletion stands in the trace, the forget request of each node of the group
    stands before it. *)
Theorem scalingDown_deletes_after_forgetting (s : State) (i : Z) (node : Node)
    (before after : Trace) :
  let c := st_cluster s in
  newEvents down s =
    before ++ EvDeleteStatefulSetByName (Namespace c) (ClusterStatefulSetName h (Name c) i)
           :: after ->
  In node (groupNodes h c statefulSetNodes i) ->
  In (EvForgetNode (ID node)) before.
Proof.
  intros c Hsplit Hnode.
  destruct (scalingDown_steps r ctx currentMasterNum statefulSetNodes s)
    as (evs & k & partial & Hadd & Hsteps & _).
  fold c in Hsteps. rewrite (adds_newEvents _ _ _ Hadd) in Hsplit.
  rewrite Hsplit in Hsteps.
  change (before ++ ?ev :: after) with (before ++ [ev] ++ after) in Hsteps.
  rewrite !retireSteps_app in Hsteps. simpl in Hsteps.
  destruct (forgets_before_deletion _ _ _ _ _ _ _ _ (eq_sym Hsteps))
    as (j & _ & Hname & Hbefore).
  apply retireSteps_forget. apply Hbefore.
  unfold groupNodes in *. rewrite Hname. exact Hnode.
Qed.

(** X17: deletions and waits are best effort. When every stateful set is
    found, every forget request succeeds and no node of a retiring group holds
    a slot, scalingDown returns nil and retires every group in full, whatever
    the deletions answer and whether or not the waits time out. *)
Theorem scalingDown_best_effort (s : State) :
  let c := st_cluster s in
  let ords := countdown (int_sub currentMasterNum 1) (MasterSize (Spec c)) in
  (forall tr ns name, isOk (GetStatefulSet (statefulSetController r) tr ns name) = true) ->
  (forall tr id, ForgetNode (admin ctx) tr id = None) ->
  Forall (emptyGroup h c statefulSetNodes) ords ->
  run down s = Ok tt /\
  retireSteps (newEvents down s) = flat_map (groupSteps h c statefulSetNodes) ords.
Proof.
  intros c ords Hlook Hforget Hempty.
  assert (Hrun : run down s = Ok tt).
  { unfold scalingDown, run, bind, getCluster. fold c. fold ords.
    rewrite removeConnections_all.
    apply (retireGroup_loop_succeeds r ctx c statefulSetNodes Hlook Hforget ords _ Hempty). }
  split; [exact Hrun|].
  destruct (scalingDown_steps r ctx currentMasterNum statefulSetNodes s)
    as (evs & k & partial & Hadd & Hsteps & Hres).
  fold c in Hsteps, Hres. fold ords in Hsteps, Hres.
  rewrite Hrun in Hres. destruct Hres as [-> ->].
  rewrite (adds_newEvents _ _ _ Hadd), Hsteps, firstn_all. simpl. apply app_nil_r.
Qed.

(** X18: scalingDown makes no call but removals from the connection pool,
    lookups of stateful sets, forget requests, deletions and waits, beside its
    log lines: it ensures no resource, attaches no node and moves no slot. *)
Theorem scalingDown_makes_no_other_call (s : State) :
  Forall (fun ev => isScalingDownEvent ev = true) (newEvents down s) /\
  Forall (fun ev => isSlotOperation ev = false) (newEvents down s) /\
  stepsRun (newEvents down s) = [].
Proof.
  destruct (scalingDown_emits r ctx currentMasterNum statefulSetNodes s) as (evs & Hadd & Hall).
  rewrite (adds_newEvents _ _ _ Hadd). split; [exact Hall|]. split.
  - eapply Forall_impl; [exact Hall|]. intros ev Hev. destruct ev; try discriminate; reflexivity.
  - clear Hadd. induction Hall as [|ev evs Hev _ IH]; [reflexivity|].
    unfold stepsRun in *. destruct ev; try discriminate; simpl; exact IH.
Qed.

End ScalingDownMore.

(** ** The further properties on the scenarios *)

Import SyncScenario ScaleDownScenario ExtraScenario.

(** Three masters for a target of three, replicated as wanted. *)
Lemma syncCluster_converged_witness :
  newEvents (syncCluster (reconcilerWith (plan 3 3)) context0) (start (cluster None 0 1))
  = [EvDispatchMasters; EvLog "masters"].
Proof.
  refine (proj2 (syncCluster_converged (reconcilerWith (plan 3 3)) context0
                   (start (cluster None 0 1)) (plan 3 3) eq_refl eq_refl _ _ _ _));
    vm_compute; discriminate.
Defined.

(** Five masters for a target of three, with replicas missing: the
    scale-replicas branch moves no slot and retires nothing. *)
Lemma syncCluster_slot_operations_witness :
  Forall (fun ev => isSlotOperation ev = false /\ isRetirement ev = false)
    (newEvents (syncCluster (reconcilerWith (plan 5 3)) context0) (start (cluster None 0 0))).
Proof.
  destruct (syncCluster_slot_operations (reconcilerWith (plan 5 3)) context0
              (start (cluster None 0 0))) as (_ & _ & _ & _ & H).
  apply H. vm_compute. reflexivity.
Defined.

(** The slots of the two masters to retire cannot be moved: the groups stay. *)
Lemma syncCluster_keeps_groups_when_dispatch_fails_witness :
  run (syncCluster (reconcilerWith (planWith 5 3 (Some migrationFailed))) context0)
      (start (cluster None 0 1))
  = Fail migrationFailed.
Proof.
  refine (proj1 (syncCluster_keeps_groups_when_dispatch_fails
                   (reconcilerWith (planWith 5 3 (Some migrationFailed))) context0
                   (start (cluster None 0 1)) (planWith 5 3 (Some migrationFailed))
                   migrationFailed eq_refl eq_refl _ _ _ _ eq_refl));
    vm_compute; first [discriminate | reflexivity].
Defined.

Lemma syncCluster_error_kinds_witness :
  exists clusterCtx tr newMasters curMasters,
    DispatchSlotToNewMasters clusterCtx tr newMasters curMasters (newMasters ++ curMasters)
    = Some migrationFailed.
Proof.
  destruct (syncCluster_error_kinds (reconcilerWith (planWith 5 3 (Some migrationFailed)))
              context0 (start (cluster None 0 1)) migrationFailed)
    as [H|[H|[H|(clusterCtx & tr & new & cur & _ & H)]]]; try discriminate.
  - vm_compute. reflexivity.
  - eauto.
Defined.

(** A cluster with no master yet, for a target of three. *)
Lemma syncCluster_growth_traces_witness :
  newEvents (syncCluster (reconcilerWith (plan 0 3)) context0) (start (cluster None 0 1))
  = [EvDispatchMasters; EvLog "masters"; EvLog "Creating cluster";
     EvPlaceSlaves; EvAttachingSlavesToMaster; EvAllocSlots].
Proof.
  destruct (syncCluster_growth_traces (reconcilerWith (plan 0 3)) context0
              (start (cluster None 0 1)) (plan 0 3) eq_refl eq_refl) as (H & _).
  - vm_compute. reflexivity.
  - apply H. vm_compute. reflexivity.
Defined.

(** Three masters for a target of three. *)
Lemma scalingDown_nothing_to_retire_witness :
  newEvents (scalingDown reconciler0 context0 3 groups) (start (cluster None 0 1)) = [].
Proof.
  refine (proj2 (scalingDown_nothing_to_retire reconciler0 context0 3 groups
                   (start (cluster None 0 1)) _ _)).
  - unfold min_int, max_int. lia.
  - simpl. lia.
Defined.

(** The drained group of ordinal 3 is retired in full. *)
Lemma scalingDown_retirement_steps_witness :
  retireSteps (newEvents (scalingDown reconciler0 context0 4 drained)
                 (start (cluster None 0 1)))
  = groupSteps helpers0 (cluster None 0 1) drained 3.
Proof.
  destruct (scalingDown_retirement_steps reconciler0 context0 4 drained
              (start (cluster None 0 1))) as (k & partial & Hsteps & Hok & _).
  destruct Hok as [-> ->]; [vm_compute; reflexivity|].
  rewrite Hsteps. vm_compute. reflexivity.
Defined.

Lemma scalingDown_deletes_after_forgetting_witness :
  In (EvForgetNode "d")
     [EvConnectionsRemove "10.0.0.7:6379"; EvConnectionsRemove "10.0.0.6:6379";
      EvLog "scaling down"; EvGetStatefulSet "ns" "drc-c-3" true;
      EvLog "forgetNode"; EvForgetNode "e"; EvLog "forgetNode"; EvForgetNode "d"].
Proof.
  refine (scalingDown_deletes_after_forgetting reconciler0 context0 4 drained
            (start (cluster None 0 1)) 3 emptyMaster _
            [EvDeleteServiceByName "ns" "c-3"; EvDeletePodDisruptionBudgetByName "ns" "drc-c-3";
             EvDeletePvcByLabels "ns" [];
             EvWaiting (waitPodTerminating "waitPodTerminating" "drc-c-3"
                          90000000000 5000000000)]
            _ _).
  - vm_compute. reflexivity.
  - vm_compute. auto.
Defined.

(** Every deletion fails and the wait times out: the group is retired all the
    same and nil is returned. *)
Lemma scalingDown_best_effort_witness :
  run (scalingDown failingDeletes context0 4 drained) (start (cluster None 0 1)) = Ok tt.
Proof.
  refine (proj1 (scalingDown_best_effort failingDeletes context0 4 drained
                   (start (cluster None 0 1)) (fun _ _ _ => eq_refl) (fun _ _ => eq_refl) _)).
  vm_compute. repeat constructor.
Defined.
